(** * bsd-images: the cloud-image provisioning script

    A shallow embedding of [src/scripts/install_cloudinit.py]: the
    functions [cloudimage_from_nuageimage], [install_cloudinit] and [main],
    over an explicit model of the collaborators they talk to (the cijoe
    configuration, the file system, the download helpers, the qemu guest
    wrapper and the local and remote command runners).

    Every call to a collaborator is recorded, with its answer, in a trace of
    events; properties of the script are stated on these traces. *)

From Stdlib Require Import ZArith List Ascii String Bool Lia.
#[local] Set Warnings "-register-all".
Import ListNotations.
Local Open Scope string_scope.
Local Open Scope Z_scope.

(** ** Python values found in the configuration *)

Inductive value : Type :=
| VNone
| VBool (b : bool)
| VInt (z : Z)
| VStr (s : string)
| VList (l : list value)
| VDict (d : list (string * value)).

(** Uncaught Python exceptions the script can run into. *)
Inductive exn : Type :=
| TypeError
| AttributeError.

(** [bool(v)], as used by [if v:] and [if not v:]. *)
Definition truthy (v : value) : bool :=
  match v with
  | VNone => false
  | VBool b => b
  | VInt z => negb (z =? 0)
  | VStr s => negb (s =? "")%string
  | VList l => match l with [] => false | _ => true end
  | VDict d => match d with [] => false | _ => true end
  end.

(** [v is None]. *)
Definition is_None (v : value) : bool :=
  match v with VNone => true | _ => false end.

(** Lookup in a dict kept as an association list in insertion order. *)
Fixpoint dict_get (d : list (string * value)) (key : string) : option value :=
  match d with
  | [] => None
  | (k, v) :: rest => if (k =? key)%string then Some v else dict_get rest key
  end.

(** [d.get(key, default)] on a dict. *)
Definition dict_get_or (d : list (string * value)) (key : string)
  (default : value) : value :=
  match dict_get d key with
  | Some v => v
  | None => default
  end.

(** [a == b] on configuration values. *)
Fixpoint py_eq (a b : value) {struct a} : bool :=
  match a, b with
  | VNone, VNone => true
  | VBool x, VBool y => Bool.eqb x y
  | VBool x, VInt y => Z.b2z x =? y
  | VInt x, VBool y => x =? Z.b2z y
  | VInt x, VInt y => x =? y
  | VStr x, VStr y => (x =? y)%string
  | VList l1, VList l2 =>
      (fix go (l1 l2 : list value) : bool :=
         match l1, l2 with
         | [], [] => true
         | x :: t, y :: u => py_eq x y && go t u
         | _, _ => false
         end) l1 l2
  | VDict d1, VDict d2 =>
      Nat.eqb (List.length d1) (List.length d2) &&
      (fix go (d : list (string * value)) : bool :=
         match d with
         | [] => true
         | (k, v) :: t =>
             match dict_get d2 k with
             | Some v' => py_eq v v'
             | None => false
             end && go t
         end) d1
  | _, _ => false
  end.

(** [errno.EINVAL] *)
Definition EINVAL : Z := 22.

(** ** The collaborators and the events they leave *)

(** What [cijoe.qemu.wrapper.Guest] exposes to the script. *)
Record Guest : Type := mkGuest {
  guest_name : string;
  guest_path : string;
  boot_img : string
}.

(** The log lines of the script, one constructor per call site, with the
    values its f-string interpolates. *)
Inductive logmsg : Type :=
| MissingNuage
| MissingCloud
| DownloadFailed (url : value) (path : string)
| DecompressFailed (src dst : string)
| MissingSystemLabel
| GuestMissingSystemLabel (name : string)
| NoGuestFound
| FailedCreating (seed_img : string)
| FailedResizing
| CouldNotInstall
| FailedCopying (cloud_path : string)
| FailedSha256 (cloud_path : string)
| InstallingCloudInit
| TransportUndefined
| FailureStartingNuageInit
| NotTerminated
| FailureStartingInstall
| NotUp
| ErrorRunningCmd (cmd : string) (err : Z)
| FailedCloudimage (err : value).

(** [logging.INFO] and [logging.ERROR]. *)
Inductive loglevel : Type := INFO | ERROR.

Inductive event : Type :=
| ELog (lvl : loglevel) (msg : logmsg)
| EGetconf (key : string)
| EExists (path : string) (answer : bool)
| EMkdir (path : string)
| EDownload (url : value) (dest : string) (err : Z)
| EDecompress (src dst : string) (err : Z)
| EGuest (name : string)
| EKill
| EInitialize (image_path : string)
| ERunLocal (cmd : string) (err : Z)
| EStart (daemonize : bool) (extra_args : list string) (err : Z)
| EWaitForTermination (timeout : Z) (answer : bool)
| EIsUp (timeout : Z) (answer : bool)
| ERun (cmd : string) (transport_name : string) (err : Z).

Definition trace : Type := list event.

(** The answers of the outside world.  Each answer may depend on everything
    that happened before the call (the trace so far).  The collaborators are
    taken with the interfaces the script relies on: they return and do not
    raise. *)
Record World : Type := mkWorld {
  conf : string -> option value;
  path_parent : string -> string;
  path_resolve : string -> string;
  exists_answer : trace -> string -> bool;
  download_err : trace -> value -> string -> Z;
  decompress_err : trace -> string -> string -> Z;
  guest_of : string -> Guest;
  run_local_err : trace -> string -> Z;
  start_err : trace -> bool -> list string -> Z;
  terminated_answer : trace -> Z -> bool;
  up_answer : trace -> Z -> bool;
  run_err : trace -> string -> string -> Z
}.

(** [cijoe.getconf(key, default)]: the configured value, or the default. *)
Definition conf_or (w : World) (key : string) (default : value) : value :=
  match conf w key with
  | Some v => v
  | None => default
  end.

(** Modelled from the spec: the default of the [daemonize] argument of
    [Guest.start], which belongs to cijoe's qemu wrapper and not to this
    repository.  The spec describes the start that omits the argument as
    daemonized. *)
Definition start_daemonize_default : bool := true.

(** ** A monad for the script: history in, emitted events out *)

Inductive res (A : Type) : Type :=
| Val (a : A)
| Return (v : value)
| Raise (e : exn).
Arguments Val {A} a.
Arguments Return {A} v.
Arguments Raise {A} e.

(** A computation reads the history and yields a result together with the
    events it emitted. [Return] is a Python [return] travelling up to the
    enclosing function; [Raise] is an uncaught exception. *)
Definition M (A : Type) : Type := trace -> res A * trace.

Definition ret {A} (a : A) : M A := fun _ => (Val a, []).

Definition bind {A B} (m : M A) (k : A -> M B) : M B :=
  fun h =>
    match m h with
    | (Val a, t1) => let (r, t2) := k a (h ++ t1)%list in (r, (t1 ++ t2)%list)
    | (Return v, t1) => (Return v, t1)
    | (Raise e, t1) => (Raise e, t1)
    end.

Definition py_return {A} (v : value) : M A := fun _ => (Return v, []).

Definition raise {A} (e : exn) : M A := fun _ => (Raise e, []).

(** A function call: the body's [return v] becomes the value of the call,
    and falling off the end gives [None]. *)
Definition call (body : M unit) : M value :=
  fun h =>
    match body h with
    | (Val _, t) => (Val VNone, t)
    | (Return v, t) => (Val v, t)
    | (Raise e, t) => (Raise e, t)
    end.

(** An [if] statement without [else]. *)
Definition when (b : bool) (m : M unit) : M unit :=
  if b then m else ret tt.

Declare Scope py_scope.
Delimit Scope py_scope with py.
Notation "x <- m ;; k" := (bind m (fun x => k))
  (at level 61, m at next level, right associativity) : py_scope.
Notation "m ;; k" := (bind m (fun _ => k))
  (at level 61, right associativity) : py_scope.
Local Open Scope py_scope.

(** [d.get(key, default)]; anything but a dict has no [get]. *)
Definition py_get (d : value) (key : string) (default : value) : M value :=
  match d with
  | VDict items => ret (dict_get_or items key default)
  | _ => raise AttributeError
  end.

(** [d.items()] *)
Definition py_items (d : value) : M (list (string * value)) :=
  match d with
  | VDict items => ret items
  | _ => raise AttributeError
  end.

(** *** Paths

    A [pathlib.Path] is kept as its text, [str(p)].  On a POSIX system
    building a path drops repeated slashes, [.] components and a trailing
    slash; one leading slash, or three and more, are the root [/], exactly
    two are the root [//]; the empty path is [.].  Components [..] stay. *)

(** [s.split("/")]; [cur] is the component being read. *)
Fixpoint split_slash (s cur : string) : list string :=
  match s with
  | EmptyString => [cur]
  | String c rest =>
      if Ascii.eqb c "/"%char then cur :: split_slash rest ""
      else split_slash rest (cur ++ String c "")
  end.

(** The root of [posixpath.splitroot]. *)
Definition path_root (s : string) : string :=
  match s with
  | String "/"%char (String "/"%char (String "/"%char _)) => "/"
  | String "/"%char (String "/"%char _) => "//"
  | String "/"%char _ => "/"
  | _ => ""
  end.

(** The components that are kept. *)
Definition path_tail (s : string) : list string :=
  filter (fun c => negb (c =? "")%string && negb (c =? ".")%string)
    (split_slash s "").

(** [str(Path(s))] *)
Definition path_str (s : string) : string :=
  let text := path_root s ++ String.concat "/" (path_tail s) in
  if (text =? "")%string then "." else text.

(** [Path(v)]: a [str] is accepted, [None] and the other configuration
    values raise [TypeError]. *)
Definition Path (v : value) : M string :=
  match v with
  | VStr s => ret (path_str s)
  | _ => raise TypeError
  end.

(** [str(Path(s).parent)]: the path without its last component; a path
    without components (a root, or [.]) is its own parent. *)
Definition parent_str (s : string) : string :=
  match rev (path_tail s) with
  | [] => path_str s
  | _ :: before =>
      let text := path_root s ++ String.concat "/" (rev before) in
      if (text =? "")%string then "." else text
  end.

Fixpoint ends_with_slash (s : string) : bool :=
  match s with
  | EmptyString => false
  | String c EmptyString => Ascii.eqb c "/"%char
  | String _ rest => ends_with_slash rest
  end.

(** [posixpath.join(a, b)] *)
Definition posix_join (a b : string) : string :=
  if prefix "/" b then b
  else if (a =? "")%string || ends_with_slash a then a ++ b
  else a ++ "/" ++ b.

(** [a / b]: the path built from both texts, [a] being the text of a
    path. *)
Definition joinpath (a b : string) : string := path_str (posix_join a b).

Arguments path_str : simpl never.
Arguments joinpath : simpl never.

Definition nonzero (err : Z) : bool := negb (err =? 0).

Section Script.

Variable w : World.

(** *** Primitive calls *)

Definition log_error (msg : logmsg) : M unit :=
  fun _ => (Val tt, [ELog ERROR msg]).

Definition log_info (msg : logmsg) : M unit :=
  fun _ => (Val tt, [ELog INFO msg]).

Definition getconf (key : string) (default : value) : M value :=
  fun _ => (Val (conf_or w key default), [EGetconf key]).

Definition path_exists (p : string) : M bool :=
  fun h => let b := exists_answer w h p in (Val b, [EExists p b]).

Definition mkdir (p : string) : M unit :=
  fun _ => (Val tt, [EMkdir p]).

Definition download (url : value) (dest : string) : M Z :=
  fun h => let e := download_err w h url dest in (Val e, [EDownload url dest e]).

Definition decompress_file (src dst : string) : M Z :=
  fun h =>
    let e := decompress_err w h src dst in (Val e, [EDecompress src dst e]).

Definition new_Guest (name : string) : M Guest :=
  fun _ => (Val (guest_of w name), [EGuest name]).

Definition guest_kill : M unit :=
  fun _ => (Val tt, [EKill]).

Definition guest_initialize (image_path : string) : M unit :=
  fun _ => (Val tt, [EInitialize image_path]).

Definition run_local (cmd : string) : M Z :=
  fun h => let e := run_local_err w h cmd in (Val e, [ERunLocal cmd e]).

Definition guest_start (daemonize : option bool) (extra_args : list string)
  : M Z :=
  fun h =>
    let d := match daemonize with
             | Some b => b
             | None => start_daemonize_default
             end in
    let e := start_err w h d extra_args in
    (Val e, [EStart d extra_args e]).

Definition guest_wait_for_termination (timeout : Z) : M bool :=
  fun h =>
    let b := terminated_answer w h timeout in
    (Val b, [EWaitForTermination timeout b]).

Definition guest_is_up (timeout : Z) : M bool :=
  fun h => let b := up_answer w h timeout in (Val b, [EIsUp timeout b]).

Definition run (cmd transport_name : string) : M Z :=
  fun h =>
    let e := run_err w h cmd transport_name in
    (Val e, [ERun cmd transport_name e]).

(** *** [install_cloudinit] *)

Definition cmds : list string :=
  [ "su -m root -c 'pkg install -y $(pkg search -q cloud-init | head -n1)'";
    "su -m root -c 'sysrc cloudinit_enable=YES'";
    "su -m root -c 'poweroff'" ].

(** The [for cmd in cmds] loop. *)
Fixpoint run_cmds (cs : list string) : M unit :=
  match cs with
  | [] => ret tt
  | cmd :: rest =>
      err <- run cmd "default_freebsd" ;;
      when (nonzero err)
        (log_error (ErrorRunningCmd cmd err) ;;
         guest_kill ;;
         py_return (VInt err)) ;;
      run_cmds rest
  end.

Definition install_cloudinit (guest : Guest) (system_args : list string)
  : M value :=
  call (
    log_info InstallingCloudInit ;;
    freebsd_transport <- getconf "cijoe.transport.default_freebsd" VNone ;;
    when (negb (truthy freebsd_transport))
      (log_error TransportUndefined ;; py_return (VInt 1)) ;;
    err <- guest_start (Some false) (system_args ++ ["-no-reboot"])%list ;;
    when (nonzero err)
      (log_error FailureStartingNuageInit ;; py_return (VInt err)) ;;
    terminated <- guest_wait_for_termination 60 ;;
    when (negb terminated)
      (log_error NotTerminated ;; py_return (VInt 1)) ;;
    err <- guest_start None system_args ;;
    when (nonzero err)
      (log_error FailureStartingInstall ;; py_return (VInt err)) ;;
    up <- guest_is_up 60 ;;
    when (negb up)
      (log_error NotUp ;; py_return (VInt 1)) ;;
    run_cmds cmds ;;
    terminated <- guest_wait_for_termination 60 ;;
    when (negb terminated)
      (log_error NotTerminated ;; py_return (VInt 1))
  ).

(** *** [cloudimage_from_nuageimage], block by block *)

(** The entries read from the image description. *)
Record entries : Type := mkEntries {
  nuage : value;
  nuage_image_path : string;
  nuage_image_url : value;
  nuage_image_metadata_path : string;
  nuage_image_userdata_path : string;
  cloud : value
}.

(** Lines 39-50: the [nuage] and [cloud] entries and the paths of [nuage]. *)
Definition read_entries (image : value) : M entries :=
  nuage <- py_get image "nuage" (VDict []) ;;
  when (negb (truthy nuage))
    (log_error MissingNuage ;; py_return (VInt EINVAL)) ;;
  path <- py_get nuage "path" VNone ;;
  nuage_image_path <- Path path ;;
  nuage_image_url <- py_get nuage "url" VNone ;;
  metadata_path <- py_get nuage "metadata_path" VNone ;;
  nuage_image_metadata_path <- Path metadata_path ;;
  userdata_path <- py_get nuage "userdata_path" VNone ;;
  nuage_image_userdata_path <- Path userdata_path ;;
  cloud <- py_get image "cloud" (VDict []) ;;
  when (negb (truthy cloud))
    (log_error MissingCloud ;; py_return (VInt EINVAL)) ;;
  ret (mkEntries nuage nuage_image_path nuage_image_url
         nuage_image_metadata_path nuage_image_userdata_path cloud).

(** Lines 52-72: download and decompression; the result is the path the
    guest is initialised from. *)
Definition fetch_nuage_image (e : entries) : M string :=
  present <- path_exists (nuage_image_path e) ;;
  when (negb present)
    (mkdir (path_parent w (nuage_image_path e)) ;;
     err <- download (nuage_image_url e) (nuage_image_path e) ;;
     when (nonzero err)
       (log_error (DownloadFailed (nuage_image_url e) (nuage_image_path e)) ;;
        py_return (VInt err))) ;;
  decompressed <- py_get (nuage e) "decompressed_path" VNone ;;
  if truthy decompressed then
    p <- Path decompressed ;;
    let nuage_image_decompressed_path := path_resolve w p in
    present <- path_exists nuage_image_decompressed_path ;;
    when (negb present)
      (mkdir (path_parent w nuage_image_decompressed_path) ;;
       err <- decompress_file (nuage_image_path e)
                nuage_image_decompressed_path ;;
       when (nonzero err)
         (log_error (DecompressFailed (nuage_image_path e)
                       nuage_image_decompressed_path) ;;
          py_return (VInt err))) ;;
    ret nuage_image_decompressed_path
  else
    ret (nuage_image_path e).

(** Lines 80-88: the loop over the configured guests; the result is
    [guest_name] when the loop is left. *)
Fixpoint guests_loop (system_label : value) (items : list (string * value))
  : M (option string) :=
  match items with
  | [] => ret None
  | (cur_guest_name, cur_guest) :: rest =>
      guest_system_label <- py_get cur_guest "system_label" VNone ;;
      when (is_None guest_system_label)
        (log_error (GuestMissingSystemLabel cur_guest_name) ;;
         py_return (VInt EINVAL)) ;;
      if py_eq guest_system_label system_label
      then ret (Some cur_guest_name)
      else guests_loop system_label rest
  end.

(** Lines 74-92: the guest whose label is the image's. *)
Definition find_guest (image : value) : M string :=
  system_label <- py_get image "system_label" VNone ;;
  when (is_None system_label) (log_error MissingSystemLabel) ;;
  guests <- getconf "qemu.guests" (VDict []) ;;
  items <- py_items guests ;;
  found <- guests_loop system_label items ;;
  match found with
  | None => log_error NoGuestFound ;; py_return (VInt EINVAL)
  | Some guest_name => ret guest_name
  end.

Definition mkisofs_cmd (seed_img guest_userdata_path guest_metadata_path : string)
  : string :=
  String.concat " "
    [ "mkisofs"; "-output"; seed_img; "-volid"; "cidata"; "-joliet"; "-rock";
      guest_userdata_path; guest_metadata_path ].

(** Lines 98-123: [seed.img] with user-data and meta-data. *)
Definition create_seed_img (guest : Guest) (e : entries) : M string :=
  let guest_metadata_path := joinpath (guest_path guest) "meta-data" in
  _err <- run_local ("cp " ++ nuage_image_metadata_path e ++ " "
                       ++ guest_metadata_path) ;;
  let guest_userdata_path := joinpath (guest_path guest) "user-data" in
  _err <- run_local ("cp " ++ nuage_image_userdata_path e ++ " "
                       ++ guest_userdata_path) ;;
  let seed_img := joinpath (guest_path guest) "seed.img" in
  let nuage_cmd := mkisofs_cmd seed_img guest_userdata_path guest_metadata_path in
  err <- run_local nuage_cmd ;;
  when (nonzero err)
    (log_error (FailedCreating seed_img) ;; py_return (VInt err)) ;;
  ret seed_img.

(** Lines 125-134: the boot image grown to 12G. *)
Definition resize_boot_img (guest : Guest) : M unit :=
  run_local ("qemu-img info " ++ boot_img guest) ;;
  err <- run_local ("qemu-img resize " ++ boot_img guest ++ " 12G") ;;
  when (nonzero err)
    (log_error FailedResizing ;; py_return (VInt err)) ;;
  run_local ("qemu-img info " ++ boot_img guest) ;;
  ret tt.

(** Lines 146-163: the copy to the cloud location and its checksum. *)
Definition copy_to_cloud (guest : Guest) (e : entries) : M unit :=
  path <- py_get (cloud e) "path" VNone ;;
  cloud_path <- Path path ;;
  mkdir (path_parent w cloud_path) ;;
  err <- run_local ("cp " ++ boot_img guest ++ " " ++ cloud_path) ;;
  when (nonzero err)
    (log_error (FailedCopying cloud_path) ;; py_return (VInt err)) ;;
  err <- run_local ("sha256sum " ++ cloud_path ++ " > " ++ cloud_path
                      ++ ".sha256") ;;
  when (nonzero err)
    (log_error (FailedSha256 cloud_path) ;; py_return (VInt err)) ;;
  run_local ("ls -la " ++ cloud_path) ;;
  run_local ("cat " ++ cloud_path ++ ".sha256") ;;
  py_return (VInt 0).

(** Lines 94-163: the work on the guest that was found. *)
Definition provision (e : entries) (image_path guest_name : string) : M unit :=
  guest <- new_Guest guest_name ;;
  guest_kill ;;
  guest_initialize image_path ;;
  seed_img <- create_seed_img guest e ;;
  resize_boot_img guest ;;
  let system_args := ([] ++ ["-cdrom"; seed_img])%list in
  err <- install_cloudinit guest system_args ;;
  when (truthy err)
    (log_error CouldNotInstall ;; py_return err) ;;
  copy_to_cloud guest e.

Definition cloudimage_from_nuageimage (image : value) : M value :=
  call (
    e <- read_entries image ;;
    image_path <- fetch_nuage_image e ;;
    guest_name <- find_guest image ;;
    provision e image_path guest_name
  ).

(** *** [main] *)

Definition main : M value :=
  call (
    image <- getconf "system-imaging.bsd-image" (VDict []) ;;
    err <- cloudimage_from_nuageimage image ;;
    when (truthy err)
      (log_error (FailedCloudimage err) ;; py_return err) ;;
    py_return (VInt 0)
  ).

End Script.

(** ** Concrete configurations and worlds *)

Module Sample.

Definition nuage_entry : value :=
  VDict [ ("path", VStr "/images/freebsd-nuage.qcow2");
          ("url", VStr "https://example.org/freebsd-nuage.qcow2");
          ("metadata_path", VStr "/aux/meta-data");
          ("userdata_path", VStr "/aux/user-data") ].

Definition cloud_entry : value :=
  VDict [ ("path", VStr "/images/freebsd-cloud.qcow2") ].

Definition image_items : list (string * value) :=
  [ ("nuage", nuage_entry);
    ("system_label", VStr "freebsd");
    ("cloud", cloud_entry) ].

Definition image : value := VDict image_items.

Definition guests : value :=
  VDict [ ("debian_vm", VDict [ ("system_label", VStr "debian") ]);
          ("freebsd_vm", VDict [ ("system_label", VStr "freebsd") ]) ].

Definition transport : value :=
  VDict [ ("username", VStr "freebsd"); ("password", VStr "freebsd") ].

Definition conf_with (guests : value) (transport : option value)
  (key : string) : option value :=
  if (key =? "qemu.guests")%string then Some guests
  else if (key =? "cijoe.transport.default_freebsd")%string then transport
  else if (key =? "system-imaging.bsd-image")%string then Some image
  else None.

Definition guest_named (name : string) : Guest :=
  mkGuest name ("/guests/" ++ name) ("/guests/" ++ name ++ "/boot.img").

(** A world given by what is configured, which paths exist, what local and
    remote commands answer, and whether the guest comes up. *)
Definition world (guests : value) (transport : option value)
  (present : string -> bool) (local_err : string -> Z) (up : bool)
  (remote_err : string -> Z) : World :=
  {| conf := conf_with guests transport;
     path_parent := parent_str;
     path_resolve := fun p => p;
     exists_answer := fun _ p => present p;
     download_err := fun _ _ _ => 0;
     decompress_err := fun _ _ _ => 0;
     guest_of := guest_named;
     run_local_err := fun _ cmd => local_err cmd;
     start_err := fun _ _ _ => 0;
     terminated_answer := fun _ _ => true;
     up_answer := fun _ _ => up;
     run_err := fun _ cmd _ => remote_err cmd |}.

(** A world in which every file is there and every call succeeds. *)
Definition calm (guests : value) (transport : option value) : World :=
  world guests transport (fun _ => true) (fun _ => 0) true (fun _ => 0).

Definition happy : World := calm guests (Some transport).

(** A matching guest followed by an entry without [system_label]. *)
Definition guests_unlabeled_last : value :=
  VDict [ ("freebsd_vm", VDict [ ("system_label", VStr "freebsd") ]);
          ("broken_vm", VDict [ ("cpu", VStr "host") ]) ].

(** An entry without [system_label] between a guest with another label and
    a matching guest. *)
Definition guests_unlabeled_middle : value :=
  VDict [ ("debian_vm", VDict [ ("system_label", VStr "debian") ]);
          ("broken_vm", VDict [ ("cpu", VStr "host") ]);
          ("freebsd_vm", VDict [ ("system_label", VStr "freebsd") ]) ].

(** The image description without [nuage.path]. *)
Definition image_without_nuage_path : value :=
  VDict [ ("nuage",
           VDict [ ("url", VStr "https://example.org/freebsd-nuage.qcow2");
                   ("metadata_path", VStr "/aux/meta-data");
                   ("userdata_path", VStr "/aux/user-data") ]);
          ("system_label", VStr "freebsd");
          ("cloud", cloud_entry) ].

(** The image description without [cloud.path]. *)
Definition image_without_cloud_path : value :=
  VDict [ ("nuage", nuage_entry);
          ("system_label", VStr "freebsd");
          ("cloud", VDict [ ("format", VStr "qcow2") ]) ].

(** The image description without [system_label]. *)
Definition image_without_system_label : value :=
  VDict [ ("nuage", nuage_entry); ("cloud", cloud_entry) ].

(** The image description with a compressed download. *)
Definition image_compressed : value :=
  VDict [ ("nuage",
           VDict [ ("path", VStr "/images/freebsd-nuage.qcow2.xz");
                   ("url", VStr "https://example.org/freebsd-nuage.qcow2.xz");
                   ("decompressed_path", VStr "/images/freebsd-nuage.qcow2");
                   ("metadata_path", VStr "/aux/meta-data");
                   ("userdata_path", VStr "/aux/user-data") ]);
          ("system_label", VStr "freebsd");
          ("cloud", cloud_entry) ].

Definition entries_compressed : entries :=
  mkEntries
    (VDict [ ("path", VStr "/images/freebsd-nuage.qcow2.xz");
             ("url", VStr "https://example.org/freebsd-nuage.qcow2.xz");
             ("decompressed_path", VStr "/images/freebsd-nuage.qcow2");
             ("metadata_path", VStr "/aux/meta-data");
             ("userdata_path", VStr "/aux/user-data") ])
    "/images/freebsd-nuage.qcow2.xz"
    (VStr "https://example.org/freebsd-nuage.qcow2.xz")
    "/aux/meta-data" "/aux/user-data" cloud_entry.

(** Only the downloaded archive is there, not its decompressed form. *)
Definition only_archive : World :=
  world guests (Some transport)
    (fun p => (p =? "/images/freebsd-nuage.qcow2.xz")%string)
    (fun _ => 0) true (fun _ => 0).

(** The copies of the payload files fail, everything else succeeds. *)
Definition payload_copy_fails : World :=
  world guests (Some transport) (fun _ => true)
    (fun cmd => if prefix "cp /aux/" cmd then 1 else 0) true (fun _ => 0).

(** The second command of the install script fails with status 3. *)
Definition sysrc_fails : World :=
  world guests (Some transport) (fun _ => true) (fun _ => 0) true
    (fun cmd =>
       if (cmd =? "su -m root -c 'sysrc cloudinit_enable=YES'")%string
       then 3 else 0).

(** The guest never comes up. *)
Definition never_up : World :=
  world guests (Some transport) (fun _ => true) (fun _ => 0) false
    (fun _ => 0).

End Sample.

(** ** Classes of events *)

(** Events that can occur before a guest is created. *)
Definition is_prelude (e : event) : bool :=
  match e with
  | ELog _ _ | EGetconf _ | EExists _ _ | EMkdir _
  | EDownload _ _ _ | EDecompress _ _ _ => true
  | _ => false
  end.

(** Events of the download and decompression block. *)
Definition is_fetch (e : event) : bool :=
  match e with
  | EExists _ _ | EMkdir _ | EDownload _ _ _ | EDecompress _ _ _ => true
  | _ => false
  end.

Definition is_download (e : event) : bool :=
  match e with EDownload _ _ _ => true | _ => false end.

Definition is_decompress (e : event) : bool :=
  match e with EDecompress _ _ _ => true | _ => false end.

Definition is_kill (e : event) : bool :=
  match e with EKill => true | _ => false end.

Definition is_start (e : event) : bool :=
  match e with EStart _ _ _ => true | _ => false end.

Definition is_run (e : event) : bool :=
  match e with ERun _ _ _ => true | _ => false end.

Definition count (P : event -> bool) (tr : trace) : nat :=
  List.length (filter P tr).

(** Events that create, start, stop, wait for or talk to the guest. *)
Definition touches_guest (e : event) : bool :=
  match e with
  | EGuest _ | EKill | EInitialize _ | EStart _ _ _
  | EWaitForTermination _ _ | EIsUp _ _ | ERun _ _ _ => true
  | _ => false
  end.

(** No event of the trace touches the guest. *)
Definition untouched (tr : trace) : Prop :=
  forallb (fun e => negb (touches_guest e)) tr = true.

(** The guests created, in order. *)
Fixpoint guest_names (tr : trace) : list string :=
  match tr with
  | [] => []
  | EGuest name :: rest => name :: guest_names rest
  | _ :: rest => guest_names rest
  end.

(** No [Q] event occurs after a [P] event. *)
Fixpoint never_after (P Q : event -> bool) (tr : trace) : bool :=
  match tr with
  | [] => true
  | e :: rest =>
      (if P e then forallb (fun x => negb (Q x)) rest else true)
      && never_after P Q rest
  end.

(** The calls that drive the guest through its boot phases, without their
    answers. *)
Inductive boot_call : Type :=
| Start (daemonize : bool) (extra_args : list string)
| WaitForTermination (timeout : Z)
| IsUp (timeout : Z).

Fixpoint boot_calls (tr : trace) : list boot_call :=
  match tr with
  | [] => []
  | EStart d args _ :: rest => Start d args :: boot_calls rest
  | EWaitForTermination t _ :: rest => WaitForTermination t :: boot_calls rest
  | EIsUp t _ :: rest => IsUp t :: boot_calls rest
  | _ :: rest => boot_calls rest
  end.

(** The two-phase boot as the specification words it: a first start in the
    foreground with the seed volume and the no-reboot flag, a wait for
    termination, a daemonized start with the same seed volume, a wait for
    readiness, and the wait for termination after the install, each wait
    bounded by 60 seconds. *)
Definition two_phase_schedule (seed_img : string) : list boot_call :=
  [ Start false ["-cdrom"; seed_img; "-no-reboot"];
    WaitForTermination 60;
    Start true ["-cdrom"; seed_img];
    IsUp 60;
    WaitForTermination 60 ].

(** The shapes a run of [install_cloudinit] can take: its result and the
    events it leaves, by the place where it stops. *)
Definition install_intro : trace :=
  [ ELog INFO InstallingCloudInit;
    EGetconf "cijoe.transport.default_freebsd" ].

Definition install_boot (args : list string) : trace :=
  [ EStart false (args ++ ["-no-reboot"])%list 0;
    EWaitForTermination 60 true;
    EStart start_daemonize_default args 0;
    EIsUp 60 true ].

Definition ok_run (cmd : string) : event := ERun cmd "default_freebsd" 0.

Inductive install_run (args : list string) : value -> trace -> Prop :=
| install_no_transport :
    install_run args (VInt 1)
      (install_intro ++ [ELog ERROR TransportUndefined])%list
| install_first_start_failed err :
    err <> 0 ->
    install_run args (VInt err)
      (install_intro ++
       [ EStart false (args ++ ["-no-reboot"])%list err;
         ELog ERROR FailureStartingNuageInit ])%list
| install_not_terminated :
    install_run args (VInt 1)
      (install_intro ++
       [ EStart false (args ++ ["-no-reboot"])%list 0;
         EWaitForTermination 60 false;
         ELog ERROR NotTerminated ])%list
| install_second_start_failed err :
    err <> 0 ->
    install_run args (VInt err)
      (install_intro ++
       [ EStart false (args ++ ["-no-reboot"])%list 0;
         EWaitForTermination 60 true;
         EStart start_daemonize_default args err;
         ELog ERROR FailureStartingInstall ])%list
| install_not_up :
    install_run args (VInt 1)
      (install_intro ++
       [ EStart false (args ++ ["-no-reboot"])%list 0;
         EWaitForTermination 60 true;
         EStart start_daemonize_default args 0;
         EIsUp 60 false;
         ELog ERROR NotUp ])%list
| install_cmd_failed done cmd rest err :
    cmds = (done ++ cmd :: rest)%list ->
    err <> 0 ->
    install_run args (VInt err)
      (install_intro ++ install_boot args ++ map ok_run done ++
       [ ERun cmd "default_freebsd" err;
         ELog ERROR (ErrorRunningCmd cmd err);
         EKill ])%list
| install_not_halted :
    install_run args (VInt 1)
      (install_intro ++ install_boot args ++ map ok_run cmds ++
       [ EWaitForTermination 60 false; ELog ERROR NotTerminated ])%list
| install_done :
    install_run args VNone
      (install_intro ++ install_boot args ++ map ok_run cmds ++
       [ EWaitForTermination 60 true ])%list.

(** The destination of the finished image: [Path(cloud.get("path"))]. *)
Definition cloud_path_of (e : entries) : option string :=
  match cloud e with
  | VDict d =>
      match dict_get d "path" with
      | Some (VStr s) => Some (path_str s)
      | _ => None
      end
  | _ => None
  end.

(** The shapes a run of the copy to the cloud location can take. *)
Inductive copy_run (w : World) (e : entries) (g : Guest)
  : res value -> trace -> Prop :=
| copy_no_path ex :
    cloud_path_of e = None ->
    copy_run w e g (Raise ex) []
| copy_failed cloud_path err :
    cloud_path_of e = Some cloud_path ->
    err <> 0 ->
    copy_run w e g (Val (VInt err))
      [ EMkdir (path_parent w cloud_path);
        ERunLocal ("cp " ++ boot_img g ++ " " ++ cloud_path) err;
        ELog ERROR (FailedCopying cloud_path) ]
| copy_sha256_failed cloud_path err :
    cloud_path_of e = Some cloud_path ->
    err <> 0 ->
    copy_run w e g (Val (VInt err))
      [ EMkdir (path_parent w cloud_path);
        ERunLocal ("cp " ++ boot_img g ++ " " ++ cloud_path) 0;
        ERunLocal ("sha256sum " ++ cloud_path ++ " > " ++ cloud_path
                     ++ ".sha256") err;
        ELog ERROR (FailedSha256 cloud_path) ]
| copy_done cloud_path ls cat :
    cloud_path_of e = Some cloud_path ->
    copy_run w e g (Val (VInt 0))
      [ EMkdir (path_parent w cloud_path);
        ERunLocal ("cp " ++ boot_img g ++ " " ++ cloud_path) 0;
        ERunLocal ("sha256sum " ++ cloud_path ++ " > " ++ cloud_path
                     ++ ".sha256") 0;
        ERunLocal ("ls -la " ++ cloud_path) ls;
        ERunLocal ("cat " ++ cloud_path ++ ".sha256") cat ].

(** The guest is created, stopped and initialised, and the two payload
    files are copied next to it; [cp1] and [cp2] are what the copies
    answered. *)
Definition setup_events (e : entries) (image_path name : string) (g : Guest)
  (cp1 cp2 : Z) : trace :=
  [ EGuest name;
    EKill;
    EInitialize image_path;
    ERunLocal ("cp " ++ nuage_image_metadata_path e ++ " "
                 ++ joinpath (guest_path g) "meta-data") cp1;
    ERunLocal ("cp " ++ nuage_image_userdata_path e ++ " "
                 ++ joinpath (guest_path g) "user-data") cp2 ].

Definition seed_img_of (g : Guest) : string :=
  joinpath (guest_path g) "seed.img".

Definition mkisofs_event (g : Guest) (err : Z) : event :=
  ERunLocal
    (mkisofs_cmd (seed_img_of g) (joinpath (guest_path g) "user-data")
       (joinpath (guest_path g) "meta-data")) err.

Definition info_event (g : Guest) (err : Z) : event :=
  ERunLocal ("qemu-img info " ++ boot_img g) err.

Definition resize_event (g : Guest) (err : Z) : event :=
  ERunLocal ("qemu-img resize " ++ boot_img g ++ " 12G") err.

(** The shapes a run of the work on the guest can take, with the value
    [cloudimage_from_nuageimage] hands back. *)
Inductive provision_run (w : World) (e : entries) (image_path name : string)
  : res value -> trace -> Prop :=
| provision_seed_failed cp1 cp2 err :
    err <> 0 ->
    provision_run w e image_path name (Val (VInt err))
      (setup_events e image_path name (guest_of w name) cp1 cp2 ++
       [ mkisofs_event (guest_of w name) err;
         ELog ERROR (FailedCreating (seed_img_of (guest_of w name))) ])%list
| provision_resize_failed cp1 cp2 i1 err :
    err <> 0 ->
    provision_run w e image_path name (Val (VInt err))
      (setup_events e image_path name (guest_of w name) cp1 cp2 ++
       [ mkisofs_event (guest_of w name) 0;
         info_event (guest_of w name) i1;
         resize_event (guest_of w name) err;
         ELog ERROR FailedResizing ])%list
| provision_install_failed cp1 cp2 i1 i2 v ti :
    install_run ["-cdrom"; seed_img_of (guest_of w name)] v ti ->
    truthy v = true ->
    provision_run w e image_path name (Val v)
      (setup_events e image_path name (guest_of w name) cp1 cp2 ++
       [ mkisofs_event (guest_of w name) 0;
         info_event (guest_of w name) i1;
         resize_event (guest_of w name) 0;
         info_event (guest_of w name) i2 ] ++
       ti ++ [ELog ERROR CouldNotInstall])%list
| provision_installed cp1 cp2 i1 i2 ti r tf :
    install_run ["-cdrom"; seed_img_of (guest_of w name)] VNone ti ->
    copy_run w e (guest_of w name) r tf ->
    provision_run w e image_path name r
      (setup_events e image_path name (guest_of w name) cp1 cp2 ++
       [ mkisofs_event (guest_of w name) 0;
         info_event (guest_of w name) i1;
         resize_event (guest_of w name) 0;
         info_event (guest_of w name) i2 ] ++
       ti ++ tf)%list.

(** The value of a call whose body ended with [r]. *)
Definition call_result (r : res unit) : res value :=
  match r with
  | Val _ => Val VNone
  | Return v => Val v
  | Raise ex => Raise ex
  end.

(** The label a guest entry declares: [cur_guest.get("system_label", None)]. *)
Definition has_label (guest : value) (label : value) : Prop :=
  exists d, guest = VDict d /\ label = dict_get_or d "system_label" VNone.

(** The loop passes over an entry that declares a label other than the one
    looked for. *)
Definition passed_over (system_label : value) (entry : string * value)
  : Prop :=
  exists label,
    has_label (snd entry) label /\
    is_None label = false /\
    py_eq label system_label = false.

(** An early [return] of a block before the guest exists hands back a
    truthy error code, and the block leaves prelude events only. *)
Definition prelude_run {A} (r : res A) (t : trace) : Prop :=
  forallb is_prelude t = true /\
  (forall v, r = Return v -> truthy v = true).

(** ** Worlds in which one collaborator fails *)

Module Faults.

(** A world over the sample configuration, given by which paths exist, what
    the download and the decompression answer, what local commands answer,
    what a start answers (by its [daemonize] flag) and whether the guest
    terminates in time. *)
Definition world (present : string -> bool) (download decompress : Z)
  (local_err : string -> Z) (start : bool -> Z) (terminated : bool)
  : World :=
  {| conf := Sample.conf_with Sample.guests (Some Sample.transport);
     path_parent := parent_str;
     path_resolve := fun p => p;
     exists_answer := fun _ p => present p;
     download_err := fun _ _ _ => download;
     decompress_err := fun _ _ _ => decompress;
     guest_of := Sample.guest_named;
     run_local_err := fun _ cmd => local_err cmd;
     start_err := fun _ d _ => start d;
     terminated_answer := fun _ _ => terminated;
     up_answer := fun _ _ => true;
     run_err := fun _ _ _ => 0 |}.

Definition download_fails : World :=
  world (fun _ => false) 7 0 (fun _ => 0) (fun _ => 0) true.

Definition decompress_fails : World :=
  world (fun p => (p =? "/images/freebsd-nuage.qcow2.xz")%string) 0 5
    (fun _ => 0) (fun _ => 0) true.


Definition resize_fails : World :=
  world (fun _ => true) 0 0
    (fun cmd => if prefix "qemu-img resize " cmd then 6 else 0)
    (fun _ => 0) true.

Definition checksum_fails : World :=
  world (fun _ => true) 0 0
    (fun cmd => if prefix "sha256sum " cmd then 8 else 0) (fun _ => 0) true.

Definition first_start_fails : World :=
  world (fun _ => true) 0 0 (fun _ => 0)
    (fun daemonize => if daemonize then 0 else 4) true.

Definition never_halts : World :=
  world (fun _ => true) 0 0 (fun _ => 0) (fun _ => 0) false.

(** No guest carries the label of the sample image. *)
Definition only_debian : World :=
  Sample.calm (VDict [ ("debian_vm", VDict [ ("system_label", VStr "debian") ]) ])
    (Some Sample.transport).

End Faults.

(** ** A description with untidy paths *)

Module Untidy.

(** The sample description, its paths written with a doubled slash, a
    leading [./], a trailing slash and a [.] component. *)
Definition nuage_entry : value :=
  VDict [ ("path", VStr "/images//freebsd-nuage.qcow2");
          ("url", VStr "https://example.org/freebsd-nuage.qcow2");
          ("metadata_path", VStr "./aux/meta-data");
          ("userdata_path", VStr "/aux/user-data/") ].

Definition cloud_entry : value :=
  VDict [ ("path", VStr "/images/./freebsd-cloud.qcow2") ].

Definition image : value :=
  VDict [ ("nuage", nuage_entry);
          ("system_label", VStr "freebsd");
          ("cloud", cloud_entry) ].

(** The same with a compressed download. *)
Definition image_compressed : value :=
  VDict [ ("nuage",
           VDict [ ("path", VStr "/images//freebsd-nuage.qcow2.xz");
                   ("url", VStr "https://example.org/freebsd-nuage.qcow2.xz");
                   ("decompressed_path", VStr "/images/./freebsd-nuage.qcow2");
                   ("metadata_path", VStr "./aux/meta-data");
                   ("userdata_path", VStr "/aux/user-data/") ]);
          ("system_label", VStr "freebsd");
          ("cloud", cloud_entry) ].

End Untidy.

(** ** Further classes of events and shapes of runs *)

Definition is_error_log (e : event) : bool :=
  match e with ELog ERROR _ => true | _ => false end.

Definition is_log (e : event) : bool :=
  match e with ELog _ _ => true | _ => false end.

(** A remote command that answered with an error. *)
Definition is_failed_run (e : event) : bool :=
  match e with ERun _ _ err => nonzero err | _ => false end.

(** The statuses the external calls of a trace answered. *)
Fixpoint statuses (tr : trace) : list Z :=
  match tr with
  | [] => []
  | EDownload _ _ err :: rest => err :: statuses rest
  | EDecompress _ _ err :: rest => err :: statuses rest
  | ERunLocal _ err :: rest => err :: statuses rest
  | EStart _ _ err :: rest => err :: statuses rest
  | ERun _ _ err :: rest => err :: statuses rest
  | _ :: rest => statuses rest
  end.

(** The remote commands of a trace, in order. *)
Fixpoint remote_commands (tr : trace) : list event :=
  match tr with
  | [] => []
  | ERun cmd tn err :: rest => ERun cmd tn err :: remote_commands rest
  | _ :: rest => remote_commands rest
  end.

(** What the block of the download leaves when it goes on: the existence
    check alone, or the check, the directory and a successful download. *)
Definition cached_events (w : World) (e : entries) (downloaded : bool)
  : trace :=
  if downloaded
  then [ EExists (nuage_image_path e) false;
         EMkdir (path_parent w (nuage_image_path e));
         EDownload (nuage_image_url e) (nuage_image_path e) 0 ]
  else [ EExists (nuage_image_path e) true ].

(** The configured decompressed path, when it is a non-empty string:
    [Path(nuage.get("decompressed_path"))], before it is resolved. *)
Definition decompressed_path_of (e : entries) : option string :=
  match nuage e with
  | VDict d =>
      match dict_get_or d "decompressed_path" VNone with
      | VStr s => if (s =? "")%string then None else Some (path_str s)
      | _ => None
      end
  | _ => None
  end.

(** The shapes a run of the download and decompression block can take. *)
Inductive fetch_run (w : World) (e : entries) : res string -> trace -> Prop :=
| fetch_download_failed err :
    err <> 0 ->
    fetch_run w e (Return (VInt err))
      [ EExists (nuage_image_path e) false;
        EMkdir (path_parent w (nuage_image_path e));
        EDownload (nuage_image_url e) (nuage_image_path e) err;
        ELog ERROR (DownloadFailed (nuage_image_url e) (nuage_image_path e)) ]
| fetch_raised downloaded ex :
    decompressed_path_of e = None ->
    fetch_run w e (Raise ex) (cached_events w e downloaded)
| fetch_cached downloaded :
    decompressed_path_of e = None ->
    fetch_run w e (Val (nuage_image_path e)) (cached_events w e downloaded)
| fetch_decompressed_present downloaded s :
    decompressed_path_of e = Some s ->
    fetch_run w e (Val (path_resolve w s))
      (cached_events w e downloaded ++ [ EExists (path_resolve w s) true ])%list
| fetch_decompressed downloaded s :
    decompressed_path_of e = Some s ->
    fetch_run w e (Val (path_resolve w s))
      (cached_events w e downloaded ++
       [ EExists (path_resolve w s) false;
         EMkdir (path_parent w (path_resolve w s));
         EDecompress (nuage_image_path e) (path_resolve w s) 0 ])%list
| fetch_decompress_failed downloaded s err :
    decompressed_path_of e = Some s ->
    err <> 0 ->
    fetch_run w e (Return (VInt err))
      (cached_events w e downloaded ++
       [ EExists (path_resolve w s) false;
         EMkdir (path_parent w (path_resolve w s));
         EDecompress (nuage_image_path e) (path_resolve w s) err;
         ELog ERROR (DecompressFailed (nuage_image_path e)
                       (path_resolve w s)) ])%list.

(** A block that did not go on: its [return] or exception is the outcome of
    the function. *)
Definition stopped {A} (r : res A) (outcome : res value) : Prop :=
  (exists v, r = Return v /\ outcome = Val v) \/
  (exists ex, r = Raise ex /\ outcome = Raise ex).

(** The image description the block of lines 39-50 accepts, and the
    entries it hands on: the three paths as [Path] builds them from the
    configured texts, the url and the two dicts as they are. *)
Definition accepted (image : value) (e : entries) : Prop :=
  exists d n path metadata_path userdata_path,
    image = VDict d /\
    dict_get_or d "nuage" (VDict []) = VDict n /\
    n <> []%list /\
    dict_get_or n "path" VNone = VStr path /\
    dict_get_or n "metadata_path" VNone = VStr metadata_path /\
    dict_get_or n "userdata_path" VNone = VStr userdata_path /\
    nuage e = VDict n /\
    nuage_image_path e = path_str path /\
    nuage_image_url e = dict_get_or n "url" VNone /\
    nuage_image_metadata_path e = path_str metadata_path /\
    nuage_image_userdata_path e = path_str userdata_path /\
    cloud e = dict_get_or d "cloud" (VDict []) /\
    truthy (cloud e) = true.

Local Open Scope list_scope.


(** ** Paths *)

(** What [Path] makes of some texts. *)
Example path_str_samples :
  path_str "/images/freebsd-nuage.qcow2" = "/images/freebsd-nuage.qcow2" /\
  path_str "/images//freebsd-nuage.qcow2" = "/images/freebsd-nuage.qcow2" /\
  path_str "./aux/meta-data" = "aux/meta-data" /\
  path_str "/aux/user-data/" = "/aux/user-data" /\
  path_str "/images/./freebsd-cloud.qcow2" = "/images/freebsd-cloud.qcow2" /\
  path_str "" = "." /\
  path_str "//srv/images" = "//srv/images" /\
  path_str "///srv/images" = "/srv/images" /\
  path_str "images/../aux" = "images/../aux".
Proof. repeat split. Qed.

Example joinpath_samples :
  joinpath "/guests/freebsd_vm" "seed.img" = "/guests/freebsd_vm/seed.img" /\
  joinpath "/" "seed.img" = "/seed.img" /\
  joinpath "." "seed.img" = "seed.img".
Proof. repeat split. Qed.

Example parent_str_samples :
  parent_str "/images/freebsd-nuage.qcow2" = "/images" /\
  parent_str "/images" = "/" /\
  parent_str "/" = "/" /\
  parent_str "freebsd-nuage.qcow2" = "." /\
  parent_str "." = ".".
Proof. repeat split. Qed.

(** The text of a path is never empty. *)
Lemma path_str_not_empty s : path_str s <> "".
Proof.
  unfold path_str.
  destruct (String.eqb_spec (path_root s ++ String.concat "/" (path_tail s)) "");
    [discriminate | assumption].
Qed.

(** ** Reading runs: inversion of the monad *)

Lemma bind_inv {A B} (m : M A) (k : A -> M B) (h : trace) r tr :
  bind m k h = (r, tr) ->
  (exists a t1 t2,
      m h = (Val a, t1) /\ k a (h ++ t1) = (r, t2) /\ tr = t1 ++ t2)
  \/ (exists v, m h = (Return v, tr) /\ r = Return v)
  \/ (exists e, m h = (Raise e, tr) /\ r = Raise e).
Proof.
  unfold bind. destruct (m h) as [[a | v | e] t1].
  - destruct (k a (h ++ t1)) as [r' t2] eqn:E. intros [= <- <-].
    left. exists a, t1, t2. auto.
  - intros [= <- <-]. right. left. exists v. auto.
  - intros [= <- <-]. right. right. exists e. auto.
Qed.

Lemma call_inv (body : M unit) (h : trace) r tr :
  call body h = (r, tr) ->
  (exists u, body h = (Val u, tr) /\ r = Val VNone)
  \/ (exists v, body h = (Return v, tr) /\ r = Val v)
  \/ (exists e, body h = (Raise e, tr) /\ r = Raise e).
Proof.
  unfold call. destruct (body h) as [[u | v | e] t]; intros [= <- <-];
    [left | right; left | right; right]; eauto.
Qed.

Lemma nonzero_false (z : Z) : nonzero z = false -> z = 0%Z.
Proof. unfold nonzero. destruct (Z.eqb_spec z 0); [auto | discriminate]. Qed.

Lemma nonzero_true (z : Z) : nonzero z = true -> z <> 0%Z.
Proof. unfold nonzero. destruct (Z.eqb_spec z 0); [discriminate | auto]. Qed.

(** *** What a primitive call yields *)

Section Primitives.

Variable w : World.

Lemma ret_inv {A} (a : A) (h : trace) r t :
  ret a h = (r, t) -> r = Val a /\ t = [].
Proof. unfold ret. intros [= <- <-]. auto. Qed.

Lemma py_return_inv {A} (v : value) (h : trace) (r : res A) t :
  py_return v h = (r, t) -> r = Return v /\ t = [].
Proof. unfold py_return. intros [= <- <-]. auto. Qed.

Lemma raise_inv {A} (e : exn) (h : trace) (r : res A) t :
  raise e h = (r, t) -> r = Raise e /\ t = [].
Proof. unfold raise. intros [= <- <-]. auto. Qed.

Lemma log_error_inv msg h r t :
  log_error msg h = (r, t) -> r = Val tt /\ t = [ELog ERROR msg].
Proof. unfold log_error. intros [= <- <-]. auto. Qed.

Lemma log_info_inv msg h r t :
  log_info msg h = (r, t) -> r = Val tt /\ t = [ELog INFO msg].
Proof. unfold log_info. intros [= <- <-]. auto. Qed.

Lemma getconf_inv key default h r t :
  getconf w key default h = (r, t) ->
  r = Val (conf_or w key default) /\ t = [EGetconf key].
Proof. unfold getconf. intros [= <- <-]. auto. Qed.

Lemma path_exists_inv p h r t :
  path_exists w p h = (r, t) ->
  r = Val (exists_answer w h p) /\ t = [EExists p (exists_answer w h p)].
Proof. unfold path_exists. intros [= <- <-]. auto. Qed.

Lemma mkdir_inv p h r t :
  mkdir p h = (r, t) -> r = Val tt /\ t = [EMkdir p].
Proof. unfold mkdir. intros [= <- <-]. auto. Qed.

Lemma download_inv url dest h r t :
  download w url dest h = (r, t) ->
  exists err, r = Val err /\ t = [EDownload url dest err].
Proof. unfold download. intros [= <- <-]. eauto. Qed.

Lemma decompress_file_inv src dst h r t :
  decompress_file w src dst h = (r, t) ->
  exists err, r = Val err /\ t = [EDecompress src dst err].
Proof. unfold decompress_file. intros [= <- <-]. eauto. Qed.

Lemma new_Guest_inv name h r t :
  new_Guest w name h = (r, t) -> r = Val (guest_of w name) /\ t = [EGuest name].
Proof. unfold new_Guest. intros [= <- <-]. auto. Qed.

Lemma guest_kill_inv h r t :
  guest_kill h = (r, t) -> r = Val tt /\ t = [EKill].
Proof. unfold guest_kill. intros [= <- <-]. auto. Qed.

Lemma guest_initialize_inv p h r t :
  guest_initialize p h = (r, t) -> r = Val tt /\ t = [EInitialize p].
Proof. unfold guest_initialize. intros [= <- <-]. auto. Qed.

Lemma run_local_inv cmd h r t :
  run_local w cmd h = (r, t) ->
  exists err, r = Val err /\ t = [ERunLocal cmd err].
Proof. unfold run_local. intros [= <- <-]. eauto. Qed.

Lemma guest_start_inv daemonize extra_args h r t :
  guest_start w daemonize extra_args h = (r, t) ->
  exists err,
    r = Val err /\
    t = [EStart (match daemonize with
                 | Some b => b
                 | None => start_daemonize_default
                 end) extra_args err].
Proof. unfold guest_start. intros [= <- <-]. eauto. Qed.

Lemma guest_wait_for_termination_inv timeout h r t :
  guest_wait_for_termination w timeout h = (r, t) ->
  exists b, r = Val b /\ t = [EWaitForTermination timeout b].
Proof. unfold guest_wait_for_termination. intros [= <- <-]. eauto. Qed.

Lemma guest_is_up_inv timeout h r t :
  guest_is_up w timeout h = (r, t) ->
  exists b, r = Val b /\ t = [EIsUp timeout b].
Proof. unfold guest_is_up. intros [= <- <-]. eauto. Qed.

Lemma run_inv cmd transport_name h r t :
  run w cmd transport_name h = (r, t) ->
  exists err, r = Val err /\ t = [ERun cmd transport_name err].
Proof. unfold run. intros [= <- <-]. eauto. Qed.

End Primitives.

(** *** Stepping through a run

    [inv H] takes a run [H : m h = (r, t)] apart, following the shape of
    [m] and finishing the first statement of a sequence before it looks at
    the rest; the answers of the world become fresh variables. *)

Ltac tidy :=
  repeat match goal with
    | H : ?x = ?x |- _ => clear H
    | H : _ /\ _ |- _ => destruct H
    | H : (_, _) = (_, _) |- _ => injection H as ? ?
    | H : Val _ = Val _ |- _ => injection H as ?
    | H : Return _ = Return _ |- _ => injection H as ?
    | H : Raise _ = Raise _ |- _ => injection H as ?
    | H : Val _ = Return _ |- _ => discriminate H
    | H : Val _ = Raise _ |- _ => discriminate H
    | H : Return _ = Val _ |- _ => discriminate H
    | H : Return _ = Raise _ |- _ => discriminate H
    | H : Raise _ = Val _ |- _ => discriminate H
    | H : Raise _ = Return _ |- _ => discriminate H
    | H : @eq value _ _ |- _ => discriminate H
    | H : VDict _ = VDict _ |- _ => injection H as ?
    | H : VStr _ = VStr _ |- _ => injection H as ?
    | H : Some _ = None |- _ => discriminate H
    | H : None = Some _ |- _ => discriminate H
    | H : Some _ = Some _ |- _ => injection H as ?
    | H : ?x = _ |- _ => is_var x; subst x
    | H : _ = ?x |- _ => is_var x; subst x
    end.

Ltac case_value v :=
  lazymatch v with
  | VNone => idtac
  | VBool _ => idtac
  | VInt _ => idtac
  | VStr _ => idtac
  | VList _ => idtac
  | VDict _ => idtac
  | _ => destruct v eqn:?
  end.

Ltac inv H :=
  lazymatch type of H with
  | bind _ _ _ = _ =>
      let H1 := fresh "Hm" in
      let H2 := fresh "Hk" in
      apply bind_inv in H;
      destruct H as [(? & ? & ? & H1 & H2 & ?) | [(? & H1 & ?) | (? & H1 & ?)]];
      [ inv H1; tidy; cbv beta zeta in H2; inv H2 | inv H1 | inv H1 ]
  | call _ _ = _ =>
      apply call_inv in H;
      destruct H as [(? & H & ?) | [(? & H & ?) | (? & H & ?)]]; inv H
  | when (negb ?b) _ _ = _ =>
      unfold when in H; destruct b eqn:?; cbn [negb] in H; inv H
  | when ?b _ _ = _ => unfold when in H; destruct b eqn:?; inv H
  | ret _ _ = _ => apply ret_inv in H
  | py_return _ _ = _ => apply py_return_inv in H
  | raise _ _ = _ => apply raise_inv in H
  | log_error _ _ = _ => apply log_error_inv in H
  | log_info _ _ = _ => apply log_info_inv in H
  | getconf _ _ _ _ = _ => apply getconf_inv in H
  | path_exists _ _ _ = _ => apply path_exists_inv in H
  | mkdir _ _ = _ => apply mkdir_inv in H
  | download _ _ _ _ = _ =>
      apply download_inv in H; destruct H as (? & ? & ?)
  | decompress_file _ _ _ _ = _ =>
      apply decompress_file_inv in H; destruct H as (? & ? & ?)
  | new_Guest _ _ _ = _ => apply new_Guest_inv in H
  | guest_kill _ = _ => apply guest_kill_inv in H
  | guest_initialize _ _ = _ => apply guest_initialize_inv in H
  | run_local _ _ _ = _ =>
      apply run_local_inv in H; destruct H as (? & ? & ?)
  | guest_start _ _ _ _ = _ =>
      apply guest_start_inv in H; destruct H as (? & ? & ?)
  | guest_wait_for_termination _ _ _ = _ =>
      apply guest_wait_for_termination_inv in H; destruct H as (? & ? & ?)
  | guest_is_up _ _ _ = _ =>
      apply guest_is_up_inv in H; destruct H as (? & ? & ?)
  | run _ _ _ _ = _ =>
      apply run_inv in H; destruct H as (? & ? & ?)
  | py_get ?d _ _ _ = _ => unfold py_get in H; case_value d; inv H
  | py_items ?d _ = _ => unfold py_items in H; case_value d; inv H
  | Path ?v _ = _ => unfold Path in H; case_value v; inv H
  | (if ?b then _ else _) _ = _ => destruct b eqn:?; inv H
  | (match ?x with Some _ => _ | None => _ end) _ = _ =>
      destruct x eqn:?; inv H
  | _ => idtac
  end; tidy.

(** ** The blocks before the guest exists *)

Ltac prelude_done :=
  repeat split; cbn;
  try solve [ reflexivity | discriminate | assumption
            | intros ? [= <-]; first [reflexivity | assumption]
            | intros ? [=] ].

Lemma read_entries_inv image h r t :
  read_entries image h = (r, t) ->
  prelude_run r t /\ (forall e, r = Val e -> t = []).
Proof.
  intros H. unfold read_entries in H. inv H; prelude_done.
Qed.

Lemma fetch_nuage_image_inv w e h r t :
  fetch_nuage_image w e h = (r, t) ->
  prelude_run r t /\ (forall p, r = Val p -> forallb is_fetch t = true).
Proof.
  intros H. unfold fetch_nuage_image in H. inv H; prelude_done.
Qed.

Lemma py_eq_None_r (v : value) : is_None v = false -> py_eq v VNone = false.
Proof. destruct v; cbn; congruence. Qed.

Lemma guests_loop_inv system_label items :
  forall h r t,
    guests_loop system_label items h = (r, t) ->
    (r = Val None /\ t = [])
    \/ (exists name, r = Val (Some name) /\ t = [] /\
                     is_None system_label = false)
    \/ (exists name,
           r = Return (VInt EINVAL) /\
           t = [ELog ERROR (GuestMissingSystemLabel name)])
    \/ (r = Raise AttributeError /\ t = []).
Proof.
  induction items as [| [cur_guest_name cur_guest] rest IH]; intros h r t H.
  - cbn [guests_loop] in H. inv H. auto.
  - cbn [guests_loop] in H. inv H; cbn [app]; eauto 8.
    right. left. exists cur_guest_name. repeat split.
    destruct system_label; try reflexivity.
    match goal with
    | E : is_None ?v = false, P : py_eq ?v VNone = true |- _ =>
        rewrite (py_eq_None_r v E) in P; discriminate P
    end.
Qed.

Lemma find_guest_inv w image h r t :
  find_guest w image h = (r, t) ->
  prelude_run r t /\
  (forall name, r = Val name ->
     t = [EGetconf "qemu.guests"] /\
     exists d, image = VDict d /\ dict_get d "system_label" <> None).
Proof.
  intros H. unfold find_guest in H. inv H;
    try match goal with
      | L : guests_loop _ _ _ = _ |- _ =>
          apply guests_loop_inv in L;
          destruct L as [(? & ?) | [(? & ? & ? & ?) | [(? & ? & ?) | (? & ?)]]];
          tidy
      end;
    try discriminate; prelude_done; try congruence.
  all: eexists; split; [reflexivity | ];
    intros E; unfold dict_get_or in *; rewrite E in *; discriminate.
Qed.

(** ** The runs of [install_cloudinit] *)

Ltac zero_answers :=
  repeat match goal with
    | H : nonzero ?z = false |- _ => apply nonzero_false in H; subst z
    | H : nonzero ?z = true |- _ => apply nonzero_true in H
    | H : negb ?b = false |- _ => apply negb_false_iff in H; subst b
    | H : negb ?b = true |- _ => apply negb_true_iff in H; try subst b
    end.

Lemma run_cmds_inv w cs :
  forall h r t,
    run_cmds w cs h = (r, t) ->
    (r = Val tt /\ t = map ok_run cs)
    \/ (exists done cmd rest err,
           cs = done ++ cmd :: rest /\ err <> 0%Z /\
           r = Return (VInt err) /\
           t = map ok_run done ++
               [ ERun cmd "default_freebsd" err;
                 ELog ERROR (ErrorRunningCmd cmd err);
                 EKill ]).
Proof.
  induction cs as [| cmd rest IH]; intros h r t H; cbn [run_cmds] in H.
  - inv H. left. auto.
  - inv H; zero_answers; cbn [app].
    + match goal with
      | L : run_cmds _ _ _ = _ |- _ =>
          apply IH in L;
          destruct L as
            [(? & ?) | (done & c & rest' & err & ? & Herr & ? & ?)]
      end; subst.
      * left. auto.
      * right. exists (cmd :: done), c, rest', err. auto.
    + right. exists [], cmd, rest. eauto.
Qed.

Lemma install_cloudinit_inv w g args h r t :
  install_cloudinit w g args h = (r, t) ->
  exists v, r = Val v /\ install_run args v t.
Proof.
  intros H. unfold install_cloudinit in H.
  inv H; zero_answers;
    try match goal with
      | L : run_cmds _ _ _ = _ |- _ =>
          apply run_cmds_inv in L;
          destruct L as
            [(? & ?) | (done & c & rest' & err & Hcs & Herr & ? & ?)];
          tidy
      end;
    eexists; (split; [reflexivity |]); cbn [app];
    first [ apply install_done
          | apply install_not_halted
          | apply (install_cmd_failed args done c rest' err); assumption
          | apply install_not_up
          | apply install_second_start_failed; assumption
          | apply install_not_terminated
          | apply install_first_start_failed; assumption
          | apply install_no_transport ].
Qed.

(** ** The runs of the work on the guest *)

Lemma cloud_path_of_str e d s :
  cloud e = VDict d ->
  dict_get_or d "path" VNone = VStr s ->
  cloud_path_of e = Some (path_str s).
Proof.
  unfold dict_get_or. intros Hd Hs. unfold cloud_path_of. rewrite Hd.
  destruct (dict_get d "path") as [[]|]; congruence.
Qed.

Lemma cloud_path_of_no_str e d :
  cloud e = VDict d ->
  (forall s, dict_get_or d "path" VNone <> VStr s) ->
  cloud_path_of e = None.
Proof.
  unfold dict_get_or. intros Hd Hs. unfold cloud_path_of. rewrite Hd.
  destruct (dict_get d "path") as [[]|]; try reflexivity.
  exfalso. eapply Hs. reflexivity.
Qed.

Lemma cloud_path_of_no_dict e :
  (forall d, cloud e <> VDict d) -> cloud_path_of e = None.
Proof.
  intros Hd. unfold cloud_path_of.
  destruct (cloud e); try reflexivity. exfalso. eapply Hd. reflexivity.
Qed.

Lemma copy_to_cloud_inv w g e h r t :
  copy_to_cloud w g e h = (r, t) -> copy_run w e g (call_result r) t.
Proof.
  intros H. unfold copy_to_cloud in H.
  inv H; zero_answers; cbn [app call_result];
    first [ apply copy_done; eauto using cloud_path_of_str
          | apply copy_sha256_failed; eauto using cloud_path_of_str
          | apply copy_failed; eauto using cloud_path_of_str
          | apply copy_no_path;
            first [ eapply cloud_path_of_no_str;
                    [eassumption | intros; congruence]
                  | apply cloud_path_of_no_dict; intros; congruence ] ].
Qed.

Lemma truthy_VInt (z : Z) : z <> 0%Z -> truthy (VInt z) = true.
Proof. intros Hz. cbn. destruct (Z.eqb_spec z 0); [contradiction | auto]. Qed.

Lemma install_run_truthy args v t :
  install_run args v t -> truthy v = true \/ v = VNone.
Proof.
  intros H. destruct H; auto using truthy_VInt.
Qed.

Lemma install_run_falsy args v t :
  install_run args v t -> truthy v = false -> v = VNone.
Proof.
  intros H Hv. destruct (install_run_truthy _ _ _ H); congruence.
Qed.

Lemma provision_inv w e image_path name h r t :
  provision w e image_path name h = (r, t) ->
  provision_run w e image_path name (call_result r) t.
Proof.
  intros H. unfold provision, create_seed_img, resize_boot_img in H.
  inv H; zero_answers;
    repeat match goal with
      | L : install_cloudinit _ _ _ _ = _ |- _ =>
          apply install_cloudinit_inv in L; destruct L as (? & ? & ?)
      | L : copy_to_cloud _ _ _ _ = _ |- _ => apply copy_to_cloud_inv in L
      end;
    tidy; cbn [app call_result].
  - match goal with
    | I : install_run _ ?v _, F : truthy ?v = false |- _ =>
        pose proof (install_run_falsy _ _ _ I F); subst v;
        eapply (provision_installed w e image_path name _ _ _ _ _ _ _ I)
    end.
    assumption.
  - match goal with
    | I : install_run _ ?v _ |- _ =>
        apply (provision_install_failed w e image_path name _ _ _ _ _ _ I)
    end.
    assumption.
  - apply provision_resize_failed. assumption.
  - apply provision_seed_failed. assumption.
Qed.

(** ** The runs of [cloudimage_from_nuageimage] *)

Lemma cloudimage_from_nuageimage_inv w image h r tr :
  cloudimage_from_nuageimage w image h = (r, tr) ->
  (forallb is_prelude tr = true /\ forall v, r = Val v -> truthy v = true)
  \/ exists e fetched image_path name t,
       read_entries image h = (Val e, []) /\
       fetch_nuage_image w e (h ++ []) = (Val image_path, fetched) /\
       forallb is_fetch fetched = true /\
       provision_run w e image_path name r t /\
       tr = fetched ++ EGetconf "qemu.guests" :: t.
Proof.
  intros H. unfold cloudimage_from_nuageimage in H.
  inv H;
    repeat match goal with
      | L : read_entries _ _ = _ |- _ =>
          let P := fresh "P" in
          pose proof (read_entries_inv _ _ _ _ L) as [[? ?] P];
          try (specialize (P _ eq_refl); subst); revert L
      | L : fetch_nuage_image _ _ _ = _ |- _ =>
          let P := fresh "P" in
          pose proof (fetch_nuage_image_inv _ _ _ _ _ L) as [[? ?] P];
          try specialize (P _ eq_refl); revert L
      | L : find_guest _ _ _ = _ |- _ =>
          let P := fresh "P" in
          pose proof (find_guest_inv _ _ _ _ _ L) as [[? ?] P];
          try (specialize (P _ eq_refl); destruct P as [? _]; subst);
          clear L
      | L : provision _ _ _ _ _ = _ |- _ => apply provision_inv in L
      end;
    intros;
    first
      [ right; do 5 eexists; cbn [app call_result] in *;
        repeat split; eassumption
      | left; cbn [app]; rewrite ?app_nil_r, ?forallb_app;
        repeat (apply andb_true_intro; split); try assumption;
        try reflexivity;
        (split; [ | intros ? [= <-]; auto ]);
        repeat (apply andb_true_intro; split); try assumption;
        try reflexivity ].
Qed.

(** ** The loop over the guests *)

Lemma guests_loop_history system_label items :
  forall h h',
    guests_loop system_label items h = guests_loop system_label items h'.
Proof.
  induction items as [| [cur_guest_name cur_guest] rest IH]; intros h h'.
  - reflexivity.
  - cbn [guests_loop]. unfold bind, py_get.
    destruct cur_guest; try reflexivity.
    unfold ret, when.
    destruct (is_None _); [reflexivity |].
    unfold ret. destruct (py_eq _ _); [reflexivity |].
    rewrite (IH ((h ++ []) ++ []) []), (IH ((h' ++ []) ++ []) []).
    reflexivity.
Qed.

Lemma guests_loop_passed_over system_label pre rest :
  Forall (passed_over system_label) pre ->
  forall h,
    guests_loop system_label (pre ++ rest) h = guests_loop system_label rest h.
Proof.
  induction 1 as [| [n g] pre (l & (d & Hg & Hl) & Hn & He) _ IH]; intros h.
  - reflexivity.
  - cbn [snd] in Hg. subst g l.
    cbn [app guests_loop]. unfold bind at 1, py_get, ret.
    unfold when, bind at 1. rewrite Hn. unfold ret.
    rewrite He. rewrite (guests_loop_history _ _ ((h ++ []) ++ []) h), IH.
    destruct (guests_loop system_label rest h). reflexivity.
Qed.

Lemma guests_loop_unlabeled system_label name g rest h :
  has_label g VNone ->
  guests_loop system_label ((name, g) :: rest) h =
    (Return (VInt EINVAL), [ELog ERROR (GuestMissingSystemLabel name)]).
Proof.
  intros (d & -> & Hl).
  cbn [guests_loop]. unfold bind at 1, py_get, ret.
  unfold when, bind at 1. rewrite <- Hl. reflexivity.
Qed.

Lemma guests_loop_match system_label name g rest h label :
  has_label g label ->
  is_None label = false ->
  py_eq label system_label = true ->
  guests_loop system_label ((name, g) :: rest) h = (Val (Some name), []).
Proof.
  intros (d & -> & Hl) Hn He.
  cbn [guests_loop]. unfold bind at 1, py_get, ret.
  unfold when, bind at 1. rewrite <- Hl, Hn. unfold ret.
  rewrite He. reflexivity.
Qed.

(** ** Traces that leave the guest alone *)

Lemma untouched_app a b : untouched a -> untouched b -> untouched (a ++ b).
Proof.
  unfold untouched. intros Ha Hb. rewrite forallb_app, Ha, Hb. reflexivity.
Qed.

Lemma prelude_untouched tr : forallb is_prelude tr = true -> untouched tr.
Proof.
  unfold untouched. induction tr as [| e tr IH]; [reflexivity |].
  cbn [forallb]. intros [He Htr]%andb_prop.
  rewrite (IH Htr). destruct e; try discriminate He; reflexivity.
Qed.

Lemma fetch_prelude tr :
  forallb is_fetch tr = true -> forallb is_prelude tr = true.
Proof.
  induction tr as [| e tr IH]; [reflexivity |].
  cbn [forallb]. intros [He Htr]%andb_prop.
  rewrite (IH Htr). destruct e; try discriminate He; reflexivity.
Qed.

Lemma fetch_untouched tr : forallb is_fetch tr = true -> untouched tr.
Proof. intros H. apply prelude_untouched, fetch_prelude, H. Qed.

Lemma untouched_In tr e : untouched tr -> In e tr -> touches_guest e = false.
Proof.
  unfold untouched. intros H Hin.
  rewrite forallb_forall in H. apply negb_true_iff, H, Hin.
Qed.

Lemma boot_calls_app a b : boot_calls (a ++ b) = boot_calls a ++ boot_calls b.
Proof.
  induction a as [| e a IH]; [reflexivity |].
  destruct e; cbn [app boot_calls]; rewrite IH; reflexivity.
Qed.

Lemma guest_names_app a b :
  guest_names (a ++ b) = guest_names a ++ guest_names b.
Proof.
  induction a as [| e a IH]; [reflexivity |].
  destruct e; cbn [app guest_names]; rewrite IH; reflexivity.
Qed.

Lemma count_app P a b : count P (a ++ b) = (count P a + count P b)%nat.
Proof. unfold count. rewrite filter_app, length_app. reflexivity. Qed.

Lemma untouched_boot_calls tr : untouched tr -> boot_calls tr = [].
Proof.
  unfold untouched. induction tr as [| e tr IH]; [reflexivity |].
  cbn [forallb]. intros [He Htr]%andb_prop.
  destruct e; try discriminate He; cbn [boot_calls]; auto.
Qed.

Lemma untouched_guest_names tr : untouched tr -> guest_names tr = [].
Proof.
  unfold untouched. induction tr as [| e tr IH]; [reflexivity |].
  cbn [forallb]. intros [He Htr]%andb_prop.
  destruct e; try discriminate He; cbn [guest_names]; auto.
Qed.

Lemma untouched_count P tr :
  (forall e, P e = true -> touches_guest e = true) ->
  untouched tr -> count P tr = 0%nat.
Proof.
  unfold untouched, count. intros HP.
  induction tr as [| e tr IH]; [reflexivity |].
  cbn [forallb filter]. intros [He Htr]%andb_prop.
  destruct (P e) eqn:E; [| auto].
  rewrite (HP _ E) in He. discriminate He.
Qed.

Lemma never_after_skip P Q a b :
  forallb (fun e => negb (P e)) a = true ->
  never_after P Q (a ++ b) = never_after P Q b.
Proof.
  induction a as [| e a IH]; [reflexivity |].
  cbn [forallb app never_after]. intros [He Ha]%andb_prop.
  apply negb_true_iff in He. rewrite He, (IH Ha). reflexivity.
Qed.

Lemma untouched_no_start tr :
  untouched tr -> forallb (fun e => negb (is_start e)) tr = true.
Proof.
  unfold untouched. induction tr as [| e tr IH]; [reflexivity |].
  cbn [forallb]. intros [He Htr]%andb_prop.
  rewrite (IH Htr). destruct e; try discriminate He; reflexivity.
Qed.

Lemma ok_runs_boot_calls l : boot_calls (map ok_run l) = [].
Proof. induction l; [reflexivity | cbn; auto]. Qed.

Lemma ok_runs_guest_names l : guest_names (map ok_run l) = [].
Proof. induction l; [reflexivity | cbn; auto]. Qed.

Lemma copy_run_untouched w e g r t : copy_run w e g r t -> untouched t.
Proof. intros H. destruct H; reflexivity. Qed.

(** ** What the runs of [install_cloudinit] have in common *)

Lemma install_run_guest_names args v t :
  install_run args v t -> guest_names t = [].
Proof.
  intros H. destruct H; unfold install_intro, install_boot;
    cbn [app guest_names];
    rewrite ?guest_names_app, ?ok_runs_guest_names; reflexivity.
Qed.

Lemma install_run_boot_calls seed v t :
  install_run ["-cdrom"; seed] v t ->
  exists n,
    boot_calls t = firstn n (two_phase_schedule seed) /\
    (v = VNone -> boot_calls t = two_phase_schedule seed).
Proof.
  intros H. destruct H; unfold install_intro, install_boot;
    cbn [app boot_calls];
    rewrite ?boot_calls_app, ?ok_runs_boot_calls; cbn [app boot_calls];
    [ exists 0%nat | exists 1%nat | exists 2%nat | exists 3%nat
    | exists 4%nat | exists 4%nat | exists 5%nat | exists 5%nat ];
    (split; [reflexivity | intros; first [discriminate | reflexivity]]).
Qed.

Lemma ok_runs_count_kill l : count is_kill (map ok_run l) = 0%nat.
Proof. induction l; [reflexivity | cbn; auto]. Qed.

Lemma ok_runs_In l cmd tn err : In (ERun cmd tn err) (map ok_run l) -> err = 0%Z.
Proof.
  intros (c & Hc & _)%in_map_iff. injection Hc as _ _ <-. reflexivity.
Qed.

Lemma ok_runs_no_up l timeout b : ~ In (EIsUp timeout b) (map ok_run l).
Proof. intros (c & Hc & _)%in_map_iff. discriminate Hc. Qed.

(** Membership in a trace given as a concatenation of pieces. *)
Ltac in_split H :=
  repeat match type of H with
    | In _ (_ ++ _) => apply in_app_or in H; destruct H as [H | H]
    | In _ (_ :: _) => destruct H as [H | H]; [try discriminate H |]
    | In _ [] => contradiction H
    | In _ install_intro => unfold install_intro in H
    | In _ (install_boot _) => unfold install_boot in H
    | In _ (setup_events _ _ _ _ _ _) => unfold setup_events in H
    | In (ERun _ _ _) (map ok_run _) => apply ok_runs_In in H
    | In (EIsUp _ _) (map ok_run _) => apply ok_runs_no_up in H; contradiction
    end.

Lemma install_run_cmd_failure args v t cmd tn err :
  install_run args v t ->
  In (ERun cmd tn err) t -> err <> 0%Z ->
  v = VInt err /\
  count is_kill t = 1%nat /\
  exists pre,
    t = pre ++ [ ERun cmd tn err;
                 ELog ERROR (ErrorRunningCmd cmd err);
                 EKill ] /\
    count is_kill pre = 0%nat /\
    (forall c n e, In (ERun c n e) pre -> e = 0%Z).
Proof.
  intros H Hin Herr.
  destruct H; in_split Hin; try congruence.
  injection Hin as <- <- <-.
  split; [reflexivity |].
  split.
  - rewrite !count_app, ok_runs_count_kill. reflexivity.
  - exists (install_intro ++ install_boot args ++ map ok_run done).
    split; [rewrite <- !app_assoc; reflexivity |].
    split.
    + rewrite !count_app, ok_runs_count_kill. reflexivity.
    + intros c n e Hc. in_split Hc; congruence.
Qed.

Lemma install_run_not_up args v t timeout :
  install_run args v t ->
  In (EIsUp timeout false) t ->
  timeout = 60%Z /\
  v = VInt 1 /\
  t = install_intro ++
      [ EStart false (args ++ ["-no-reboot"]) 0;
        EWaitForTermination 60 true;
        EStart start_daemonize_default args 0;
        EIsUp 60 false;
        ELog ERROR NotUp ].
Proof.
  intros H Hin.
  destruct H; in_split Hin; try discriminate Hin.
  injection Hin as <-. auto.
Qed.

(** Finds a given event in a computed trace. *)
Ltac find_event :=
  vm_compute; repeat (first [left; reflexivity | right]).

(** ** Properties *)

(** C10: when [cijoe.transport.default_freebsd] is absent or falsy,
    [install_cloudinit] returns 1 having only logged and read the
    configuration: the guest is not started, nothing is waited for and no
    remote command is run. *)
Theorem install_needs_transport w g args h :
  truthy (conf_or w "cijoe.transport.default_freebsd" VNone) = false ->
  install_cloudinit w g args h =
    (Val (VInt 1),
     [ ELog INFO InstallingCloudInit;
       EGetconf "cijoe.transport.default_freebsd";
       ELog ERROR TransportUndefined ]).
Proof.
  intros Hc.
  destruct (install_cloudinit w g args h) as [r t] eqn:E.
  unfold install_cloudinit in E.
  inv E; try (rewrite Hc in *; discriminate).
  reflexivity.
Qed.

Lemma install_needs_transport_witness :
  install_cloudinit (Sample.calm Sample.guests None)
    (Sample.guest_named "freebsd_vm") ["-cdrom"; "/guests/freebsd_vm/seed.img"]
    [] =
    (Val (VInt 1),
     [ ELog INFO InstallingCloudInit;
       EGetconf "cijoe.transport.default_freebsd";
       ELog ERROR TransportUndefined ]).
Proof.
  apply (install_needs_transport (Sample.calm Sample.guests None)).
  reflexivity.
Defined.

(** C1, as the code has it: the loop over the guests stops at the first
    entry that is unlabeled or carries the label looked for.  When the
    entries before [name] all carry other labels, an unlabeled [name] makes
    the selection return [EINVAL], whatever follows; an entry [name] that
    carries the label is selected, whatever follows, unlabeled entries
    included. *)
Theorem guest_selection_first_decisive w d pre name g post h label :
  conf_or w "qemu.guests" (VDict []) = VDict (pre ++ (name, g) :: post) ->
  Forall (passed_over (dict_get_or d "system_label" VNone)) pre ->
  has_label g label ->
  (is_None label = true ->
   find_guest w (VDict d) h =
     (Return (VInt EINVAL),
      (if is_None (dict_get_or d "system_label" VNone)
       then [ELog ERROR MissingSystemLabel] else [])
      ++ [ EGetconf "qemu.guests";
           ELog ERROR (GuestMissingSystemLabel name) ]))
  /\
  (is_None label = false ->
   py_eq label (dict_get_or d "system_label" VNone) = true ->
   find_guest w (VDict d) h = (Val name, [EGetconf "qemu.guests"])).
Proof.
  intros Hconf Hpre Hg.
  split.
  - intros Hn. destruct label; try discriminate Hn.
    destruct (find_guest w (VDict d) h) as [r t] eqn:E.
    unfold find_guest in E.
    inv E.
    all:
      match goal with
      | L : guests_loop _ _ _ = _ |- _ =>
          rewrite (guests_loop_passed_over _ _ _ Hpre),
            (guests_loop_unlabeled _ _ _ _ _ Hg) in L;
          tidy
      end;
      reflexivity.
  - intros Hn He.
    destruct (find_guest w (VDict d) h) as [r t] eqn:E.
    unfold find_guest in E.
    inv E;
      match goal with
      | L : guests_loop _ _ _ = _ |- _ =>
          rewrite (guests_loop_passed_over _ _ _ Hpre),
            (guests_loop_match _ _ _ _ _ _ Hg Hn He) in L;
          tidy
      end;
      try reflexivity.
    match goal with
    | N : is_None ?v = true |- _ =>
        destruct v; try discriminate N;
        rewrite (py_eq_None_r _ Hn) in He; discriminate He
    end.
Qed.

Lemma guest_selection_first_decisive_witness :
  find_guest (Sample.calm Sample.guests_unlabeled_middle (Some Sample.transport))
    Sample.image [] =
    (Return (VInt EINVAL),
     [ EGetconf "qemu.guests";
       ELog ERROR (GuestMissingSystemLabel "broken_vm") ])
  /\
  find_guest (Sample.calm Sample.guests_unlabeled_last (Some Sample.transport))
    Sample.image [] =
    (Val "freebsd_vm", [EGetconf "qemu.guests"]).
Proof.
  split.
  - refine (proj1 (guest_selection_first_decisive
                     (Sample.calm Sample.guests_unlabeled_middle
                        (Some Sample.transport))
                     Sample.image_items
                     [("debian_vm", VDict [("system_label", VStr "debian")])]
                     "broken_vm" (VDict [("cpu", VStr "host")])
                     [("freebsd_vm", VDict [("system_label", VStr "freebsd")])]
                     [] VNone _ _ _) _).
    + reflexivity.
    + constructor; [| constructor].
      exists (VStr "debian"). split; [| split; reflexivity].
      eexists. split; reflexivity.
    + eexists. split; reflexivity.
    + reflexivity.
  - refine (proj2 (guest_selection_first_decisive
                     (Sample.calm Sample.guests_unlabeled_last
                        (Some Sample.transport))
                     Sample.image_items
                     []
                     "freebsd_vm" (VDict [("system_label", VStr "freebsd")])
                     [("broken_vm", VDict [("cpu", VStr "host")])]
                     [] (VStr "freebsd") _ _ _) _ _).
    + reflexivity.
    + constructor.
    + eexists. split; reflexivity.
    + reflexivity.
    + reflexivity.
Defined.

(** C1, as stated, fails: the set below holds an entry without label, yet
    the selection returns the matching guest that precedes it and the whole
    run succeeds. *)
Lemma guest_selection_not_eager :
  has_label (VDict [("cpu", VStr "host")]) VNone /\
  conf_or (Sample.calm Sample.guests_unlabeled_last (Some Sample.transport))
    "qemu.guests" (VDict []) =
    VDict [ ("freebsd_vm", VDict [ ("system_label", VStr "freebsd") ]);
            ("broken_vm", VDict [ ("cpu", VStr "host") ]) ] /\
  find_guest (Sample.calm Sample.guests_unlabeled_last (Some Sample.transport))
    Sample.image [] =
    (Val "freebsd_vm", [EGetconf "qemu.guests"]) /\
  fst (cloudimage_from_nuageimage
         (Sample.calm Sample.guests_unlabeled_last (Some Sample.transport))
         Sample.image []) =
    Val (VInt 0).
Proof.
  split; [| split; [| split]].
  - eexists. split; reflexivity.
  - reflexivity.
  - vm_compute. reflexivity.
  - vm_compute. reflexivity.
Qed.

(** C6: without [nuage.path] the run ends in an uncaught [TypeError] before
    anything is done, and without [cloud.path] it ends in an uncaught
    [TypeError] after the install, instead of returning [EINVAL]. *)
Theorem missing_path_raises :
  cloudimage_from_nuageimage Sample.happy Sample.image_without_nuage_path [] =
    (Raise TypeError, [])
  /\
  fst (cloudimage_from_nuageimage Sample.happy
         Sample.image_without_cloud_path []) =
    Raise TypeError
  /\
  In (ERun "su -m root -c 'poweroff'" "default_freebsd" 0)
    (snd (cloudimage_from_nuageimage Sample.happy
            Sample.image_without_cloud_path [])).
Proof.
  split; [| split].
  - vm_compute. reflexivity.
  - vm_compute. reflexivity.
  - vm_compute. tauto.
Qed.

(** C7: without [system_label] the run logs the missing entry and goes on
    to read the guests and to look for one; it fails only there. *)
Theorem missing_system_label_goes_on :
  cloudimage_from_nuageimage Sample.happy Sample.image_without_system_label
    [] =
    (Val (VInt EINVAL),
     [ EExists "/images/freebsd-nuage.qcow2" true;
       ELog ERROR MissingSystemLabel;
       EGetconf "qemu.guests";
       ELog ERROR NoGuestFound ]).
Proof. vm_compute. reflexivity. Qed.

(** C8: when both copies of the payload files fail, the run still builds
    the seed volume and ends with 0. *)
Theorem payload_copy_failure_ignored :
  fst (cloudimage_from_nuageimage Sample.payload_copy_fails Sample.image []) =
    Val (VInt 0)
  /\
  firstn 8
    (snd (cloudimage_from_nuageimage Sample.payload_copy_fails Sample.image
            [])) =
    [ EExists "/images/freebsd-nuage.qcow2" true;
      EGetconf "qemu.guests";
      EGuest "freebsd_vm";
      EKill;
      EInitialize "/images/freebsd-nuage.qcow2";
      ERunLocal "cp /aux/meta-data /guests/freebsd_vm/meta-data" 1;
      ERunLocal "cp /aux/user-data /guests/freebsd_vm/user-data" 1;
      ERunLocal
        "mkisofs -output /guests/freebsd_vm/seed.img -volid cidata -joliet -rock /guests/freebsd_vm/user-data /guests/freebsd_vm/meta-data"
        0 ].
Proof. split; vm_compute; reflexivity. Qed.

(** C9, as the code has it: when the cache path exists nothing is
    downloaded.  If moreover no decompressed path is configured, the block
    does nothing but the existence check and hands on the cache path; if one
    is configured and exists, the block does nothing but the two existence
    checks and hands on the resolved decompressed path; if one is configured
    and does not exist, the cached archive is decompressed into it, once:
    after the two existence checks the block creates the directory of the
    resolved decompressed path and decompresses the cache path into that
    path, and it hands that path on unless the decompression fails. *)
Theorem fetch_skips_what_exists w e h d :
  nuage e = VDict d ->
  exists_answer w h (nuage_image_path e) = true ->
  count is_download (snd (fetch_nuage_image w e h)) = 0%nat
  /\
  (truthy (dict_get_or d "decompressed_path" VNone) = false ->
   fetch_nuage_image w e h =
     (Val (nuage_image_path e), [EExists (nuage_image_path e) true]))
  /\
  (forall p,
     dict_get_or d "decompressed_path" VNone = VStr p ->
     p <> ""%string ->
     exists_answer w (h ++ [EExists (nuage_image_path e) true])
       (path_resolve w (path_str p)) = true ->
     fetch_nuage_image w e h =
       (Val (path_resolve w (path_str p)),
        [ EExists (nuage_image_path e) true;
          EExists (path_resolve w (path_str p)) true ]))
  /\
  (forall p,
     dict_get_or d "decompressed_path" VNone = VStr p ->
     p <> ""%string ->
     exists_answer w (h ++ [EExists (nuage_image_path e) true])
       (path_resolve w (path_str p)) = false ->
     count is_decompress (snd (fetch_nuage_image w e h)) = 1%nat /\
     exists err,
       fetch_nuage_image w e h =
         (if nonzero err
          then Return (VInt err)
          else Val (path_resolve w (path_str p)),
          [ EExists (nuage_image_path e) true;
            EExists (path_resolve w (path_str p)) false;
            EMkdir (path_parent w (path_resolve w (path_str p)));
            EDecompress (nuage_image_path e) (path_resolve w (path_str p))
              err ]
          ++ (if nonzero err
              then [ ELog ERROR
                       (DecompressFailed (nuage_image_path e)
                          (path_resolve w (path_str p))) ]
              else []))).
Proof.
  intros Hd Hp.
  destruct (fetch_nuage_image w e h) as [r t] eqn:E.
  unfold fetch_nuage_image in E.
  inv E; try congruence; cbn [snd];
    repeat match goal with
      | H : context [(_ ++ [])] |- _ => rewrite app_nil_r in H
      end;
    cbn [app];
    (split; [reflexivity | split; [| split]];
     [ intros Ht; first [congruence | reflexivity]
     | intros p' Hs Hne Hex; try congruence
     | intros p' Hs Hne Hex; try congruence ]);
    try (injection Hs as <-; reflexivity);
    try (injection Hs as <-;
         split; [reflexivity |];
         match goal with
         | N : nonzero ?x = _ |- _ => exists x; rewrite N; reflexivity
         end);
    match goal with
    | T : truthy _ = false |- _ =>
        rewrite Hs in T; cbn in T;
        apply negb_false_iff, String.eqb_eq in T; congruence
    end.
Qed.

Lemma fetch_skips_what_exists_witness :
  count is_download
    (snd (fetch_nuage_image Sample.happy Sample.entries_compressed [])) = 0%nat
  /\
  fetch_nuage_image Sample.happy Sample.entries_compressed [] =
    (Val "/images/freebsd-nuage.qcow2",
     [ EExists "/images/freebsd-nuage.qcow2.xz" true;
       EExists "/images/freebsd-nuage.qcow2" true ])
  /\
  fetch_nuage_image Sample.only_archive Sample.entries_compressed [] =
    (Val "/images/freebsd-nuage.qcow2",
     [ EExists "/images/freebsd-nuage.qcow2.xz" true;
       EExists "/images/freebsd-nuage.qcow2" false;
       EMkdir "/images";
       EDecompress "/images/freebsd-nuage.qcow2.xz"
         "/images/freebsd-nuage.qcow2" 0 ]).
Proof.
  destruct (fetch_skips_what_exists Sample.happy Sample.entries_compressed []
              _ eq_refl eq_refl) as (Hcount & _ & Hdec & _).
  destruct (fetch_skips_what_exists Sample.only_archive
              Sample.entries_compressed [] _ eq_refl eq_refl)
    as (_ & _ & _ & Hnew).
  split; [exact Hcount | split].
  - apply (Hdec "/images/freebsd-nuage.qcow2").
    + reflexivity.
    + discriminate.
    + reflexivity.
  - destruct (Hnew "/images/freebsd-nuage.qcow2" eq_refl) as (_ & err & Herr).
    + discriminate.
    + reflexivity.
    + vm_compute. reflexivity.
Defined.

(** C9, as stated, fails: the archive is in the cache but its decompressed
    form is not, and the block decompresses it. *)
Lemma fetch_decompresses_cached_archive :
  read_entries Sample.image_compressed [] =
    (Val Sample.entries_compressed, [])
  /\
  fetch_nuage_image Sample.only_archive Sample.entries_compressed [] =
    (Val "/images/freebsd-nuage.qcow2",
     [ EExists "/images/freebsd-nuage.qcow2.xz" true;
       EExists "/images/freebsd-nuage.qcow2" false;
       EMkdir "/images";
       EDecompress "/images/freebsd-nuage.qcow2.xz"
         "/images/freebsd-nuage.qcow2" 0 ])
  /\
  count is_decompress
    (snd (cloudimage_from_nuageimage Sample.only_archive
            Sample.image_compressed [])) = 1%nat.
Proof. repeat split; vm_compute; reflexivity. Qed.

(** C4: the guest is driven through the two-phase schedule, in that order
    and with nothing else in between: a first start in the foreground with
    the seed volume and [-no-reboot], a wait for termination of 60 seconds,
    a daemonized start with the same seed volume, a readiness wait of 60
    seconds and, after the install, a wait for termination of 60 seconds.
    A run that stops early has made a prefix of these calls; a run that
    ends with 0 has made them all. *)
Theorem two_phase_boot w image h r tr :
  cloudimage_from_nuageimage w image h = (r, tr) ->
  (guest_names tr = [] /\ boot_calls tr = [] /\ r <> Val (VInt 0))
  \/
  exists name n,
    guest_names tr = [name] /\
    boot_calls tr =
      firstn n (two_phase_schedule (seed_img_of (guest_of w name))) /\
    (r = Val (VInt 0) ->
     boot_calls tr = two_phase_schedule (seed_img_of (guest_of w name))).
Proof.
  intros H.
  destruct (cloudimage_from_nuageimage_inv _ _ _ _ _ H)
    as [[Hpre Hr] | (e & fetched & image_path & name & t & _ & _ & Hf & Hp & ->)].
  - left. apply prelude_untouched in Hpre.
    split; [apply untouched_guest_names, Hpre |].
    split; [apply untouched_boot_calls, Hpre |].
    intros ->. specialize (Hr _ eq_refl). discriminate Hr.
  - right. exists name.
    apply fetch_untouched in Hf.
    rewrite guest_names_app, boot_calls_app.
    rewrite (untouched_guest_names _ Hf), (untouched_boot_calls _ Hf).
    cbn [app guest_names boot_calls].
    destruct Hp as [cp1 cp2 err Herr | cp1 cp2 i1 err Herr
                   | cp1 cp2 i1 i2 v ti Hi Hv | cp1 cp2 i1 i2 ti r tf Hi Hc];
      unfold setup_events, mkisofs_event, info_event, resize_event;
      cbn [app guest_names boot_calls].
    + exists 0%nat. repeat split. intros [= ->]. contradiction.
    + exists 0%nat. repeat split. intros [= ->]. contradiction.
    + destruct (install_run_boot_calls _ _ _ Hi) as (n & Hn & _).
      exists n.
      rewrite guest_names_app, boot_calls_app, Hn.
      rewrite (install_run_guest_names _ _ _ Hi).
      cbn [app guest_names boot_calls]. rewrite app_nil_r.
      repeat split. intros [= ->]. discriminate Hv.
    + destruct (install_run_boot_calls _ _ _ Hi) as (n & _ & Hn).
      exists 5%nat.
      apply copy_run_untouched in Hc.
      rewrite guest_names_app, boot_calls_app, (Hn eq_refl).
      rewrite (install_run_guest_names _ _ _ Hi).
      rewrite (untouched_guest_names _ Hc), (untouched_boot_calls _ Hc).
      repeat split.
Qed.

Lemma two_phase_boot_witness :
  guest_names (snd (cloudimage_from_nuageimage Sample.happy Sample.image []))
    = ["freebsd_vm"]
  /\
  boot_calls (snd (cloudimage_from_nuageimage Sample.happy Sample.image []))
    = two_phase_schedule "/guests/freebsd_vm/seed.img".
Proof.
  destruct (two_phase_boot Sample.happy Sample.image []
              (fst (cloudimage_from_nuageimage Sample.happy Sample.image []))
              (snd (cloudimage_from_nuageimage Sample.happy Sample.image []))
              (surjective_pairing _))
    as [(_ & _ & Hr) | (name & n & Hname & _ & Hall)].
  - exfalso. apply Hr. vm_compute. reflexivity.
  - assert (Hn : name = "freebsd_vm"%string).
    { assert (E : guest_names
                    (snd (cloudimage_from_nuageimage Sample.happy
                            Sample.image [])) = ["freebsd_vm"%string])
        by (vm_compute; reflexivity).
      rewrite E in Hname. injection Hname as <-. reflexivity. }
    subst name. split; [exact Hname |].
    apply Hall. vm_compute. reflexivity.
Defined.

(** C2: when a command of the install script answers with an error, the
    guest is killed once, right after the failing command, no further
    command is run and the error is what [install_cloudinit] returns; the
    pipeline returns the same error and stops there, before the copy to the
    destination and its checksum.  The failing command is the first one to
    fail: the commands before it answered 0. *)
Theorem install_failure_cleanup w :
  (forall g args h r t cmd tn err,
     install_cloudinit w g args h = (r, t) ->
     In (ERun cmd tn err) t -> err <> 0%Z ->
     r = Val (VInt err) /\
     count is_kill t = 1%nat /\
     exists pre,
       t = pre ++ [ ERun cmd tn err;
                    ELog ERROR (ErrorRunningCmd cmd err);
                    EKill ] /\
       (forall c n e, In (ERun c n e) pre -> e = 0%Z))
  /\
  (forall image h r tr cmd tn err,
     cloudimage_from_nuageimage w image h = (r, tr) ->
     In (ERun cmd tn err) tr -> err <> 0%Z ->
     r = Val (VInt err) /\
     exists pre,
       tr = pre ++ [ ERun cmd tn err;
                     ELog ERROR (ErrorRunningCmd cmd err);
                     EKill;
                     ELog ERROR CouldNotInstall ] /\
       (forall c n e, In (ERun c n e) pre -> e = 0%Z)).
Proof.
  split.
  - intros g args h r t cmd tn err H Hin Herr.
    apply install_cloudinit_inv in H. destruct H as (v & -> & Hi).
    destruct (install_run_cmd_failure _ _ _ _ _ _ Hi Hin Herr)
      as (-> & Hk & pre & -> & _ & Hpre).
    split; [reflexivity |]. split; [exact Hk |].
    exists pre. auto.
  - intros image h r tr cmd tn err H Hin Herr.
    destruct (cloudimage_from_nuageimage_inv _ _ _ _ _ H)
      as [[Hpre _] | (e & fetched & image_path & name & t & _ & _ & Hf & Hp & ->)].
    + apply prelude_untouched in Hpre.
      pose proof (untouched_In _ _ Hpre Hin) as Hc. discriminate Hc.
    + apply fetch_untouched in Hf.
      destruct Hp as [cp1 cp2 e0 He0 | cp1 cp2 i1 e0 He0
                     | cp1 cp2 i1 i2 v ti Hi Hv | cp1 cp2 i1 i2 ti r tf Hi Hc];
        unfold mkisofs_event, info_event, resize_event in *;
        in_split Hin;
        try (pose proof (untouched_In _ _ Hf Hin) as Hc'; discriminate Hc').
      * destruct (install_run_cmd_failure _ _ _ _ _ _ Hi Hin Herr)
          as (-> & _ & pre & -> & _ & Hpre).
        split; [reflexivity |].
        exists (fetched ++ EGetconf "qemu.guests"
                  :: setup_events e image_path name (guest_of w name) cp1 cp2
                  ++ [ ERunLocal
                         (mkisofs_cmd (seed_img_of (guest_of w name))
                            (joinpath (guest_path (guest_of w name))
                               "user-data")
                            (joinpath (guest_path (guest_of w name))
                               "meta-data")) 0;
                       ERunLocal ("qemu-img info "
                                    ++ boot_img (guest_of w name))%string i1;
                       ERunLocal ("qemu-img resize "
                                    ++ boot_img (guest_of w name)
                                    ++ " 12G")%string 0;
                       ERunLocal ("qemu-img info "
                                    ++ boot_img (guest_of w name))%string i2 ]
                  ++ pre).
        split.
        { unfold setup_events. cbn [app]. rewrite <- !app_assoc.
          reflexivity. }
        intros c n e' Hc. in_split Hc;
          try (pose proof (untouched_In _ _ Hf Hc) as Hc'; discriminate Hc').
        eapply Hpre, Hc.
      * destruct (install_run_cmd_failure _ _ _ _ _ _ Hi Hin Herr)
          as (Hv & _). discriminate Hv.
      * apply copy_run_untouched in Hc.
        pose proof (untouched_In _ _ Hc Hin) as Hc'. discriminate Hc'.
Qed.

Lemma install_failure_cleanup_witness :
  fst (install_cloudinit Sample.sysrc_fails (Sample.guest_named "freebsd_vm")
         ["-cdrom"; "/guests/freebsd_vm/seed.img"] []) = Val (VInt 3)
  /\
  count is_kill
    (snd (install_cloudinit Sample.sysrc_fails
            (Sample.guest_named "freebsd_vm")
            ["-cdrom"; "/guests/freebsd_vm/seed.img"] [])) = 1%nat
  /\
  fst (cloudimage_from_nuageimage Sample.sysrc_fails Sample.image []) =
    Val (VInt 3).
Proof.
  destruct (install_failure_cleanup Sample.sysrc_fails) as [Hinstall Hpipeline].
  assert (Hne : 3%Z <> 0%Z) by discriminate.
  split; [| split].
  - refine (proj1 (Hinstall _ _ [] _ _
                     "su -m root -c 'sysrc cloudinit_enable=YES'"
                     "default_freebsd" 3%Z (surjective_pairing _) _ Hne)).
    find_event.
  - refine (proj1 (proj2 (Hinstall _ _ [] _ _
                     "su -m root -c 'sysrc cloudinit_enable=YES'"
                     "default_freebsd" 3%Z (surjective_pairing _) _ Hne))).
    find_event.
  - refine (proj1 (Hpipeline Sample.image [] _ _
                     "su -m root -c 'sysrc cloudinit_enable=YES'"
                     "default_freebsd" 3%Z (surjective_pairing _) _ Hne)).
    find_event.
Defined.

(** C5: when the readiness wait answers that the guest is not up, the wait
    was the one of 60 seconds, the pipeline returns 1 and stops there, no
    command of the install script has been run, and no kill follows a
    start of the guest. *)
Theorem readiness_timeout w image h r tr timeout :
  cloudimage_from_nuageimage w image h = (r, tr) ->
  In (EIsUp timeout false) tr ->
  timeout = 60%Z /\
  r = Val (VInt 1) /\
  (exists pre,
     tr = pre ++ [ EIsUp 60 false;
                   ELog ERROR NotUp;
                   ELog ERROR CouldNotInstall ]) /\
  count is_run tr = 0%nat /\
  never_after is_start is_kill tr = true.
Proof.
  intros H Hin.
  destruct (cloudimage_from_nuageimage_inv _ _ _ _ _ H)
    as [[Hpre _] | (e & fetched & image_path & name & t & _ & _ & Hf & Hp & ->)].
  - apply prelude_untouched in Hpre.
    pose proof (untouched_In _ _ Hpre Hin) as Hc. discriminate Hc.
  - apply fetch_untouched in Hf.
    destruct Hp as [cp1 cp2 e0 He0 | cp1 cp2 i1 e0 He0
                   | cp1 cp2 i1 i2 v ti Hi Hv | cp1 cp2 i1 i2 ti r tf Hi Hc];
      unfold mkisofs_event, info_event, resize_event in *;
      in_split Hin;
      try (pose proof (untouched_In _ _ Hf Hin) as Hc'; discriminate Hc').
    + destruct (install_run_not_up _ _ _ _ Hi Hin) as (-> & -> & ->).
      split; [reflexivity |]. split; [reflexivity |].
      split; [| split].
      * exists (fetched ++ EGetconf "qemu.guests"
                  :: setup_events e image_path name (guest_of w name) cp1 cp2
                  ++ [ ERunLocal
                         (mkisofs_cmd (seed_img_of (guest_of w name))
                            (joinpath (guest_path (guest_of w name))
                               "user-data")
                            (joinpath (guest_path (guest_of w name))
                               "meta-data")) 0;
                       ERunLocal ("qemu-img info "
                                    ++ boot_img (guest_of w name))%string i1;
                       ERunLocal ("qemu-img resize "
                                    ++ boot_img (guest_of w name)
                                    ++ " 12G")%string 0;
                       ERunLocal ("qemu-img info "
                                    ++ boot_img (guest_of w name))%string i2 ]
                  ++ install_intro
                  ++ [ EStart false
                         (["-cdrom"; seed_img_of (guest_of w name)]
                            ++ ["-no-reboot"]) 0;
                       EWaitForTermination 60 true;
                       EStart start_daemonize_default
                         ["-cdrom"; seed_img_of (guest_of w name)] 0 ]).
        unfold setup_events, install_intro. cbn [app].
        rewrite <- !app_assoc. reflexivity.
      * rewrite count_app.
        rewrite (untouched_count is_run fetched); [reflexivity | | exact Hf].
        intros [] He; try discriminate He; reflexivity.
      * rewrite (never_after_skip _ _ _ _ (untouched_no_start _ Hf)).
        reflexivity.
    + destruct (install_run_not_up _ _ _ _ Hi Hin) as (_ & Hv & _).
      discriminate Hv.
    + apply copy_run_untouched in Hc.
      pose proof (untouched_In _ _ Hc Hin) as Hc'. discriminate Hc'.
Qed.

Lemma readiness_timeout_witness :
  fst (cloudimage_from_nuageimage Sample.never_up Sample.image []) =
    Val (VInt 1)
  /\
  count is_run
    (snd (cloudimage_from_nuageimage Sample.never_up Sample.image [])) = 0%nat
  /\
  never_after is_start is_kill
    (snd (cloudimage_from_nuageimage Sample.never_up Sample.image [])) = true.
Proof.
  assert (Hin : In (EIsUp 60 false)
                  (snd (cloudimage_from_nuageimage Sample.never_up
                          Sample.image [])))
    by find_event.
  destruct (readiness_timeout Sample.never_up Sample.image [] _ _ 60%Z
              (surjective_pairing _) Hin)
    as (_ & Hr & _ & Hruns & Hkill).
  auto.
Defined.

(** * Further properties of the script *)

(** ** The blocks before the guest, in full *)

Lemma read_entries_shape image h r t :
  read_entries image h = (r, t) ->
  (exists e, r = Val e /\ t = [] /\ accepted image e)
  \/ (r = Return (VInt EINVAL) /\
      (t = [ELog ERROR MissingNuage] \/ t = [ELog ERROR MissingCloud]))
  \/ (exists ex, r = Raise ex /\ t = []).
Proof.
  intros H. unfold read_entries in H.
  inv H; cbn [app]; eauto 6.
  left. eexists. split; [reflexivity |]. split; [reflexivity |].
  match goal with
  | N : dict_get_or ?d "nuage" _ = VDict ?n,
    P : dict_get_or ?n "path" _ = VStr ?p,
    Q : dict_get_or ?n "metadata_path" _ = VStr ?m,
    R : dict_get_or ?n "userdata_path" _ = VStr ?u |- _ =>
      exists d, n, p, m, u
  end.
  cbn. repeat split; auto. intros ->. discriminate.
Qed.

(** The entries the block hands on for a description it accepts. *)
Lemma accepted_read_entries image h e :
  accepted image e -> read_entries image h = (Val e, []).
Proof.
  intros (d & n & p & m & u & -> & Hn & Hne & Hp & Hm & Hu & He & Hpath & Hurl
          & Hmeta & Huser & Hc & Ht).
  destruct e as [en ep eu em eud ec]. cbn in *. subst.
  unfold read_entries, bind, py_get, when, ret, Path.
  rewrite Hn. destruct n as [| x n]; [contradiction |].
  cbn [truthy negb]. rewrite Hp, Hm, Hu. cbn. rewrite Ht. reflexivity.
Qed.

(** X1. The block of lines 39-50 goes on exactly for the image descriptions
    whose [nuage] entry is a non-empty dict with string [path],
    [metadata_path] and [userdata_path] and whose [cloud] entry is truthy;
    it then has logged nothing and hands on the three paths as [Path]
    builds them from the configured texts (repeated slashes, [.]
    components and a trailing slash dropped), the url and the two entries
    as they are. *)
Theorem read_entries_accepts image h e :
  read_entries image h = (Val e, []) <-> accepted image e.
Proof.
  split.
  - intros H. destruct (read_entries_shape _ _ _ _ H)
      as [(e' & [= <-] & _ & Ha) | [(Hr & _) | (ex & Hr & _)]];
      [exact Ha | discriminate Hr | discriminate Hr].
  - apply accepted_read_entries.
Qed.

Lemma decompressed_path_of_str e d s :
  nuage e = VDict d ->
  dict_get_or d "decompressed_path" VNone = VStr s ->
  truthy (VStr s) = true ->
  decompressed_path_of e = Some (path_str s).
Proof.
  intros Hd Hs Ht. unfold decompressed_path_of. rewrite Hd, Hs.
  cbn in Ht. apply negb_true_iff in Ht. rewrite Ht. reflexivity.
Qed.

Lemma decompressed_path_of_falsy e d :
  nuage e = VDict d ->
  truthy (dict_get_or d "decompressed_path" VNone) = false ->
  decompressed_path_of e = None.
Proof.
  intros Hd Ht. unfold decompressed_path_of. rewrite Hd.
  destruct (dict_get_or d "decompressed_path" VNone); try reflexivity.
  cbn in Ht. apply negb_false_iff in Ht. rewrite Ht. reflexivity.
Qed.

Lemma decompressed_path_of_no_str e d :
  nuage e = VDict d ->
  (forall s, dict_get_or d "decompressed_path" VNone <> VStr s) ->
  decompressed_path_of e = None.
Proof.
  intros Hd Hs. unfold decompressed_path_of. rewrite Hd.
  destruct (dict_get_or d "decompressed_path" VNone); try reflexivity.
  exfalso. eapply Hs. reflexivity.
Qed.

Lemma decompressed_path_of_no_dict e :
  (forall d, nuage e <> VDict d) -> decompressed_path_of e = None.
Proof.
  intros Hd. unfold decompressed_path_of.
  destruct (nuage e); try reflexivity. exfalso. eapply Hd. reflexivity.
Qed.

Lemma fetch_nuage_image_shape w e h r t :
  fetch_nuage_image w e h = (r, t) -> fetch_run w e r t.
Proof.
  intros H. unfold fetch_nuage_image in H.
  inv H; zero_answers; cbn [app] in *;
    repeat match goal with
      | E : exists_answer _ _ _ = _ |- _ => rewrite E
      end;
    first
      [ apply fetch_download_failed; assumption
      | apply (fetch_decompress_failed w e false); solve [eauto using decompressed_path_of_str]
      | apply (fetch_decompress_failed w e true); solve [eauto using decompressed_path_of_str]
      | apply (fetch_decompressed w e false); solve [eauto using decompressed_path_of_str]
      | apply (fetch_decompressed w e true); solve [eauto using decompressed_path_of_str]
      | apply (fetch_decompressed_present w e false); solve [eauto using decompressed_path_of_str]
      | apply (fetch_decompressed_present w e true); solve [eauto using decompressed_path_of_str]
      | first [ apply (fetch_cached w e false)
              | apply (fetch_cached w e true)
              | apply (fetch_raised w e false)
              | apply (fetch_raised w e true) ];
        first [ eapply decompressed_path_of_falsy; eassumption
              | eapply decompressed_path_of_no_str;
                [eassumption | intros; congruence]
              | apply decompressed_path_of_no_dict; intros; congruence ] ].
Qed.

Lemma guests_loop_shape system_label items :
  forall h r t,
    guests_loop system_label items h = (r, t) ->
    (r = Val None /\ t = [] /\ Forall (passed_over system_label) items)
    \/ (exists pre name g post label,
           items = pre ++ (name, g) :: post /\
           Forall (passed_over system_label) pre /\
           has_label g label /\
           ((is_None label = true /\
             r = Return (VInt EINVAL) /\
             t = [ELog ERROR (GuestMissingSystemLabel name)])
            \/ (is_None label = false /\
                py_eq label system_label = true /\
                r = Val (Some name) /\ t = [])))
    \/ (r = Raise AttributeError /\ t = []).
Proof.
  induction items as [| [cur_guest_name cur_guest] rest IH]; intros h r t H.
  - cbn [guests_loop] in H. inv H. left. auto.
  - cbn [guests_loop] in H. inv H; cbn [app]; auto.
    + right. left.
      exists [], cur_guest_name, (VDict d), rest,
        (dict_get_or d "system_label" VNone).
      split; [reflexivity |]. split; [constructor |].
      split; [eexists; split; reflexivity |]. right. auto.
    + match goal with
      | L : guests_loop _ _ _ = _ |- _ => apply IH in L; rename L into HL
      end.
      assert (Hp : passed_over system_label (cur_guest_name, VDict d)).
      { exists (dict_get_or d "system_label" VNone).
        split; [eexists; split; reflexivity | auto]. }
      destruct HL as [(-> & -> & Hall)
                     | [(pre & name & g & post & label & -> & Hall & Hrest)
                       | (-> & ->)]].
      * left. auto.
      * right. left.
        exists ((cur_guest_name, VDict d) :: pre), name, g, post, label.
        split; [reflexivity |]. split; [constructor; assumption |].
        exact Hrest.
      * auto.
    + right. left.
      exists [], cur_guest_name, (VDict d), rest,
        (dict_get_or d "system_label" VNone).
      split; [reflexivity |]. split; [constructor |].
      split; [eexists; split; reflexivity |]. left. auto.
Qed.

Lemma find_guest_shape w image h r t :
  find_guest w image h = (r, t) ->
  exists L,
    (L = [] \/ L = [ELog ERROR MissingSystemLabel]) /\
    ((exists d pre name g post label,
        image = VDict d /\
        conf_or w "qemu.guests" (VDict []) = VDict (pre ++ (name, g) :: post) /\
        Forall (passed_over (dict_get_or d "system_label" VNone)) pre /\
        has_label g label /\
        is_None label = false /\
        py_eq label (dict_get_or d "system_label" VNone) = true /\
        is_None (dict_get_or d "system_label" VNone) = false /\
        r = Val name /\ L = [] /\ t = [EGetconf "qemu.guests"])
     \/ (r = Return (VInt EINVAL) /\
         exists msg, t = L ++ [EGetconf "qemu.guests"; ELog ERROR msg])
     \/ (r = Raise AttributeError /\
         (t = [] \/ t = L ++ [EGetconf "qemu.guests"]))).
Proof.
  intros H. unfold find_guest in H.
  inv H;
    try match goal with
      | L : guests_loop _ _ _ = _ |- _ =>
          apply guests_loop_shape in L;
          destruct L as [(? & ? & Hall)
                        | [(pre & name & g & post & label & ? & Hall & Hg
                            & [(Hn & ? & ?) | (Hn & He & ? & ?)])
                          | (? & ?)]];
          tidy
      end;
    cbn [app];
    first
      [ solve [ exists []; (split; [auto |]); cbn [app]; eauto 8 ]
      | solve [ exists [ELog ERROR MissingSystemLabel];
                (split; [auto |]); cbn [app]; eauto 8 ]
      | idtac ].
  - exfalso.
    destruct (dict_get_or d "system_label" VNone); try discriminate Heqb.
    rewrite (py_eq_None_r _ Hn) in He. discriminate He.
  - exists []. split; [auto |].
    left. exists d, pre, name, g, post, label. repeat split; auto.
Qed.

(** ** The run of [cloudimage_from_nuageimage], block by block *)

Lemma cloudimage_stages w image h r tr :
  cloudimage_from_nuageimage w image h = (r, tr) ->
  (exists rb, read_entries image h = (rb, tr) /\ stopped rb r)
  \/ (exists e rf,
        accepted image e /\ fetch_run w e rf tr /\ stopped rf r)
  \/ (exists e image_path fetched rg t,
        accepted image e /\
        fetch_run w e (Val image_path) fetched /\
        find_guest w image (h ++ fetched) = (rg, t) /\
        stopped rg r /\
        tr = fetched ++ t)
  \/ (exists e image_path fetched name t,
        accepted image e /\
        fetch_run w e (Val image_path) fetched /\
        find_guest w image (h ++ fetched) =
          (Val name, [EGetconf "qemu.guests"]) /\
        provision_run w e image_path name r t /\
        tr = fetched ++ EGetconf "qemu.guests" :: t).
Proof.
  intros H. unfold cloudimage_from_nuageimage in H.
  inv H;
    repeat match goal with
      | L : find_guest _ _ _ = _ |- _ => progress rewrite app_nil_r in L
      | L : find_guest _ _ _ = (Val _, _) |- _ =>
          let P := fresh "P" in
          pose proof (find_guest_inv _ _ _ _ _ L) as [_ P];
          specialize (P _ eq_refl); destruct P as [P _];
          progress subst
      | L : read_entries _ _ = (Val _, _) |- _ =>
          let P := fresh "P" in
          pose proof (read_entries_shape _ _ _ _ L) as P;
          destruct P as [(? & ? & ? & ?) | [(? & _) | (? & ? & _)]];
          tidy; clear L
      | L : fetch_nuage_image _ _ _ = _ |- _ =>
          apply fetch_nuage_image_shape in L
      | L : provision _ _ _ _ _ = _ |- _ => apply provision_inv in L
      end;
    cbn [app call_result] in *;
    unfold stopped;
    first
      [ solve [ left; eauto 8 ]
      | solve [ right; left; eauto 8 ]
      | solve [ right; right; left; do 5 eexists; eauto 10 ]
      | solve [ right; right; right; do 5 eexists; eauto 10 ] ].
Qed.

(** Membership in a trace given by the shapes of the blocks. *)
Ltac in_shape H :=
  repeat match type of H with
    | In _ (_ ++ _) => apply in_app_or in H; destruct H as [H | H]
    | In _ (_ :: _) => destruct H as [H | H]; [try discriminate H |]
    | In _ [] => contradiction H
    | In _ install_intro => unfold install_intro in H
    | In _ (install_boot _) => unfold install_boot in H
    | In _ (setup_events _ _ _ _ _ _) => unfold setup_events in H
    | In _ (cached_events _ _ ?b) => unfold cached_events in H; destruct b
    | In (ERun _ _ _) (map ok_run _) => apply ok_runs_In in H
    | In _ (map ok_run _) =>
        let c := fresh "c" in
        apply in_map_iff in H; destruct H as (c & H & _);
        unfold ok_run in H; try discriminate H
    end.

Ltac open_shapes :=
  repeat match goal with
    | H : provision_run _ _ _ _ _ _ |- _ => inversion H; subst; clear H
    | H : install_run _ _ _ |- _ => inversion H; subst; clear H
    | H : copy_run _ _ _ _ _ |- _ => inversion H; subst; clear H
    | H : fetch_run _ _ _ _ |- _ => inversion H; subst; clear H
    end;
  unfold mkisofs_event, info_event, resize_event in *.

Ltac open_stopped :=
  repeat match goal with
    | H : stopped _ _ |- _ =>
        destruct H as [(? & ? & ?) | (? & ? & ?)]; subst
    end.

Lemma read_entries_no_call image h r t e :
  read_entries image h = (r, t) -> In e t -> is_error_log e = true.
Proof.
  intros H Hin.
  destruct (read_entries_shape _ _ _ _ H)
    as [(? & _ & -> & _) | [(_ & [-> | ->]) | (? & _ & ->)]];
    in_shape Hin; subst; reflexivity.
Qed.

Lemma find_guest_no_call w image h r t e :
  find_guest w image h = (r, t) ->
  In e t -> e = EGetconf "qemu.guests" \/ is_error_log e = true.
Proof.
  intros H Hin.
  destruct (find_guest_shape _ _ _ _ _ H) as (L & HL & Hs).
  destruct Hs as [(d & pre & name & g & post & label & _ & _ & _ & _ & _ & _
                    & _ & _ & _ & ->)
                 | [(_ & msg & ->) | (_ & [-> | ->])]];
    destruct HL as [-> | ->]; in_shape Hin; subst; auto.
Qed.

(** X2. A download that answers with an error ends the run there: the run
    consists of the failed existence check of the cache path, the creation
    of its directory, the download and the error line, and returns the
    status of the download. *)
Theorem download_failure_stops w image h r tr url dest err :
  cloudimage_from_nuageimage w image h = (r, tr) ->
  In (EDownload url dest err) tr -> err <> 0%Z ->
  r = Val (VInt err) /\
  tr = [ EExists dest false;
         EMkdir (path_parent w dest);
         EDownload url dest err;
         ELog ERROR (DownloadFailed url dest) ].
Proof.
  intros H Hin Herr.
  destruct (cloudimage_stages _ _ _ _ _ H)
    as [(rb & Hb & Hs)
       | [(e & rf & _ & Hf & Hs)
         | [(e & p & fetched & rg & t & _ & Hf & Hg & Hs & ->)
           | (e & p & fetched & name & t & _ & Hf & _ & Hp & ->)]]].
  - pose proof (read_entries_no_call _ _ _ _ _ Hb Hin) as Hc. discriminate Hc.
  - open_stopped; open_shapes; in_shape Hin; try congruence;
      injection Hin as <- <- <-; auto.
  - in_shape Hin.
    + open_shapes; in_shape Hin; congruence.
    + destruct (find_guest_no_call _ _ _ _ _ _ Hg Hin) as [Hc | Hc];
        discriminate Hc.
  - in_shape Hin.
    + open_shapes; in_shape Hin; congruence.
    + open_shapes; in_shape Hin.
Qed.

Lemma count_none P tr :
  (forall e, In e tr -> P e = false) -> count P tr = 0%nat.
Proof.
  unfold count. induction tr as [| e tr IH]; intros H; [reflexivity |].
  cbn [filter]. rewrite (H e (or_introl eq_refl)).
  apply IH. intros x Hx. apply H. right. exact Hx.
Qed.

Lemma provision_run_no_transfer w e image_path name r t x :
  provision_run w e image_path name r t ->
  In x t ->
  is_download x = false /\ is_decompress x = false.
Proof.
  intros H Hin.
  open_shapes; in_shape Hin; subst; auto.
Qed.

Lemma fetch_run_transfers w e r t :
  fetch_run w e r t ->
  (count is_download t <= 1)%nat /\ (count is_decompress t <= 1)%nat.
Proof.
  intros H. destruct H;
    try match goal with
      | |- context [cached_events _ _ ?b] => destruct b
      end;
    cbn; auto.
Qed.

(** X3. No run downloads more than once or decompresses more than once. *)
Theorem transfers_at_most_once w image h r tr :
  cloudimage_from_nuageimage w image h = (r, tr) ->
  (count is_download tr <= 1)%nat /\ (count is_decompress tr <= 1)%nat.
Proof.
  intros H.
  assert (Hlog : forall x, is_error_log x = true ->
                   is_download x = false /\ is_decompress x = false)
    by (intros [] Hx; try discriminate Hx; auto).
  destruct (cloudimage_stages _ _ _ _ _ H)
    as [(rb & Hb & Hs)
       | [(e & rf & _ & Hf & Hs)
         | [(e & p & fetched & rg & t & _ & Hf & Hg & Hs & ->)
           | (e & p & fetched & name & t & _ & Hf & _ & Hp & ->)]]].
  - rewrite !count_none; [auto | |];
      intros x Hx; apply Hlog, (read_entries_no_call _ _ _ _ _ Hb Hx).
  - exact (fetch_run_transfers _ _ _ _ Hf).
  - rewrite !count_app.
    rewrite (count_none is_download t), (count_none is_decompress t).
    + rewrite !Nat.add_0_r. exact (fetch_run_transfers _ _ _ _ Hf).
    + intros x Hx.
      destruct (find_guest_no_call _ _ _ _ _ _ Hg Hx) as [-> | Hc];
        [reflexivity | apply Hlog, Hc].
    + intros x Hx.
      destruct (find_guest_no_call _ _ _ _ _ _ Hg Hx) as [-> | Hc];
        [reflexivity | apply Hlog, Hc].
  - rewrite !count_app.
    rewrite (count_none is_download (_ :: t)),
      (count_none is_decompress (_ :: t)).
    + rewrite !Nat.add_0_r. exact (fetch_run_transfers _ _ _ _ Hf).
    + intros x [<- | Hx]; [reflexivity |].
      apply (provision_run_no_transfer _ _ _ _ _ _ _ Hp Hx).
    + intros x [<- | Hx]; [reflexivity |].
      apply (provision_run_no_transfer _ _ _ _ _ _ _ Hp Hx).
Qed.

(** ** The first checks and [main] *)

Lemma read_entries_stops w image h v t :
  read_entries image h = (Return v, t) ->
  cloudimage_from_nuageimage w image h = (Val v, t).
Proof.
  intros H. unfold cloudimage_from_nuageimage, call, bind. rewrite H.
  reflexivity.
Qed.

Lemma read_entries_without_nuage d h :
  truthy (dict_get_or d "nuage" (VDict [])) = false ->
  read_entries (VDict d) h =
    (Return (VInt EINVAL), [ELog ERROR MissingNuage]).
Proof.
  intros Hn.
  unfold read_entries, bind at 1, py_get, ret.
  unfold bind at 1, when. rewrite Hn. reflexivity.
Qed.

(** X4. An image description whose [nuage] entry is absent or falsy makes
    the run return [EINVAL] having done nothing but log the missing entry. *)
Theorem missing_nuage_entry w d h :
  truthy (dict_get_or d "nuage" (VDict [])) = false ->
  cloudimage_from_nuageimage w (VDict d) h =
    (Val (VInt EINVAL), [ELog ERROR MissingNuage]).
Proof.
  intros Hn. apply read_entries_stops, read_entries_without_nuage, Hn.
Qed.

Lemma missing_nuage_entry_witness :
  cloudimage_from_nuageimage Sample.happy
    (VDict [("system_label", VStr "freebsd"); ("cloud", Sample.cloud_entry)])
    [] =
    (Val (VInt EINVAL), [ELog ERROR MissingNuage]).
Proof.
  apply (missing_nuage_entry Sample.happy). reflexivity.
Defined.

(** X5. When the [nuage] entry is usable and the [cloud] entry is absent or
    falsy, the run returns [EINVAL] having done nothing but log the missing
    entry: nothing is checked on disk and nothing is downloaded. *)
Theorem missing_cloud_entry w d n path metadata_path userdata_path h :
  dict_get_or d "nuage" (VDict []) = VDict n ->
  n <> [] ->
  dict_get_or n "path" VNone = VStr path ->
  dict_get_or n "metadata_path" VNone = VStr metadata_path ->
  dict_get_or n "userdata_path" VNone = VStr userdata_path ->
  truthy (dict_get_or d "cloud" (VDict [])) = false ->
  cloudimage_from_nuageimage w (VDict d) h =
    (Val (VInt EINVAL), [ELog ERROR MissingCloud]).
Proof.
  intros Hn Hne Hp Hm Hu Hc. apply read_entries_stops.
  unfold read_entries, bind, py_get, when, ret, Path.
  rewrite Hn. destruct n as [| x n]; [contradiction |].
  cbn [truthy negb]. rewrite Hp, Hm, Hu. cbn. rewrite Hc. reflexivity.
Qed.

Lemma missing_cloud_entry_witness :
  cloudimage_from_nuageimage Sample.happy
    (VDict [("nuage", Sample.nuage_entry); ("system_label", VStr "freebsd")])
    [] =
    (Val (VInt EINVAL), [ELog ERROR MissingCloud]).
Proof.
  refine (missing_cloud_entry Sample.happy
            [("nuage", Sample.nuage_entry); ("system_label", VStr "freebsd")]
            [ ("path", VStr "/images/freebsd-nuage.qcow2");
              ("url", VStr "https://example.org/freebsd-nuage.qcow2");
              ("metadata_path", VStr "/aux/meta-data");
              ("userdata_path", VStr "/aux/user-data") ]
            "/images/freebsd-nuage.qcow2" "/aux/meta-data" "/aux/user-data"
            [] eq_refl _ eq_refl eq_refl eq_refl eq_refl).
  discriminate.
Defined.

Lemma fetch_run_prelude w e r t :
  fetch_run w e r t ->
  forallb is_prelude t = true /\
  (forall v, r = Return v -> truthy v = true).
Proof.
  intros H. destruct H;
    try match goal with
      | |- context [cached_events _ _ ?b] => destruct b
      end;
    (split; [reflexivity |]); intros v [= <-]; auto using truthy_VInt.
Qed.

Lemma cloudimage_selected w image h r tr :
  cloudimage_from_nuageimage w image h = (r, tr) ->
  (forallb is_prelude tr = true /\ forall v, r = Val v -> truthy v = true)
  \/ (exists e image_path fetched name t,
        accepted image e /\
        fetch_run w e (Val image_path) fetched /\
        find_guest w image (h ++ fetched) =
          (Val name, [EGetconf "qemu.guests"]) /\
        provision_run w e image_path name r t /\
        tr = fetched ++ EGetconf "qemu.guests" :: t).
Proof.
  intros H.
  destruct (cloudimage_stages _ _ _ _ _ H)
    as [(rb & Hb & Hs)
       | [(e & rf & _ & Hf & Hs)
         | [(e & p & fetched & rg & t & _ & Hf & Hg & Hs & ->)
           | D]]];
    [left | left | left | right; exact D].
  - destruct (read_entries_inv _ _ _ _ Hb) as [[Hp Hv] _].
    split; [exact Hp |].
    intros v ->. destruct Hs as [(v' & -> & [= <-]) | (ex & _ & Hr)];
      [auto | discriminate Hr].
  - destruct (fetch_run_prelude _ _ _ _ Hf) as [Hp Hv].
    split; [exact Hp |].
    intros v ->. destruct Hs as [(v' & -> & [= <-]) | (ex & _ & Hr)];
      [auto | discriminate Hr].
  - destruct (fetch_run_prelude _ _ _ _ Hf) as [Hp _].
    destruct (find_guest_inv _ _ _ _ _ Hg) as [[Hp' Hv] _].
    split; [rewrite forallb_app, Hp, Hp'; reflexivity |].
    intros v ->. destruct Hs as [(v' & -> & [= <-]) | (ex & _ & Hr)];
      [auto | discriminate Hr].
Qed.

Lemma provision_run_result w e image_path name r t v :
  provision_run w e image_path name r t ->
  r = Val v -> truthy v = true \/ v = VInt 0.
Proof.
  intros H ->. inversion H; subst; auto using truthy_VInt.
  match goal with
  | C : copy_run _ _ _ _ _ |- _ => inversion C; subst; auto using truthy_VInt
  end.
Qed.

Lemma cloudimage_result w image h v tr :
  cloudimage_from_nuageimage w image h = (Val v, tr) ->
  truthy v = true \/ v = VInt 0.
Proof.
  intros H.
  destruct (cloudimage_selected _ _ _ _ _ H)
    as [[_ Hv] | (e & p & fetched & name & t & _ & _ & _ & Hp & _)].
  - left. apply Hv. reflexivity.
  - eapply provision_run_result; [exact Hp | reflexivity].
Qed.

(** X6. [main] reads the image description under
    [system-imaging.bsd-image] (an empty one when the key is absent) and
    runs the pipeline on it.  It returns 0 exactly when the pipeline
    returned 0; a truthy result of the pipeline is logged and returned as
    it is; an exception of the pipeline goes through. *)
Theorem main_result w h r tr :
  main w h = (r, tr) ->
  exists rp tp,
    cloudimage_from_nuageimage w
      (conf_or w "system-imaging.bsd-image" (VDict []))
      (h ++ [EGetconf "system-imaging.bsd-image"]) = (rp, tp) /\
    ((rp = Val (VInt 0) /\ r = Val (VInt 0) /\
      tr = EGetconf "system-imaging.bsd-image" :: tp)
     \/ (exists v,
           rp = Val v /\ truthy v = true /\ r = Val v /\
           tr = EGetconf "system-imaging.bsd-image"
                  :: tp ++ [ELog ERROR (FailedCloudimage v)])
     \/ (exists ex,
           rp = Raise ex /\ r = Raise ex /\
           tr = EGetconf "system-imaging.bsd-image" :: tp)).
Proof.
  intros H. unfold main in H.
  inv H; cbn [app] in *;
    match goal with
    | C : cloudimage_from_nuageimage _ _ _ = _ |- _ =>
        do 2 eexists; split; [exact C |];
        try (destruct (cloudimage_result _ _ _ _ _ C) as [Ht | ->])
    end;
    rewrite ?app_nil_r;
    first
      [ congruence
      | match goal with T : truthy (VInt 0) = true |- _ => discriminate T end
      | match goal with
        | C : cloudimage_from_nuageimage _ _ _ = (Return _, _) |- _ =>
            apply call_inv in C;
            destruct C as [(? & _ & C) | [(? & _ & C) | (? & _ & C)]];
            discriminate C
        end
      | solve [ left; auto ]
      | solve [ right; left; eexists; repeat split; eauto ]
      | solve [ right; right; eexists; repeat split; eauto ] ].
Qed.

Lemma main_result_witness :
  exists rp tp,
    cloudimage_from_nuageimage Sample.happy
      (conf_or Sample.happy "system-imaging.bsd-image" (VDict []))
      ([] ++ [EGetconf "system-imaging.bsd-image"]) = (rp, tp) /\
    ((rp = Val (VInt 0) /\ @Val value (VInt 0) = Val (VInt 0) /\
      snd (main Sample.happy []) =
        EGetconf "system-imaging.bsd-image" :: tp)
     \/ (exists v,
           rp = Val v /\ truthy v = true /\ Val (VInt 0) = Val v /\
           snd (main Sample.happy []) =
             EGetconf "system-imaging.bsd-image"
               :: tp ++ [ELog ERROR (FailedCloudimage v)])
     \/ (exists ex,
           rp = Raise ex /\ @Val value (VInt 0) = Raise ex /\
           snd (main Sample.happy []) =
             EGetconf "system-imaging.bsd-image" :: tp)).
Proof.
  apply (main_result Sample.happy [] (Val (VInt 0))
           (snd (main Sample.happy []))).
  vm_compute. reflexivity.
Defined.

(** X7. When the configuration has no [system-imaging.bsd-image] entry,
    [main] runs the pipeline on an empty description and returns [EINVAL]:
    the missing [nuage] entry and the failure are logged and nothing else
    is done. *)
Theorem main_without_image_entry w h :
  conf w "system-imaging.bsd-image" = None ->
  main w h =
    (Val (VInt EINVAL),
     [ EGetconf "system-imaging.bsd-image";
       ELog ERROR MissingNuage;
       ELog ERROR (FailedCloudimage (VInt EINVAL)) ]).
Proof.
  intros Hc.
  unfold main, call, bind at 1, getconf, conf_or. rewrite Hc.
  unfold bind at 1.
  rewrite (read_entries_stops w _ _ _ _
             (read_entries_without_nuage [] _ eq_refl)).
  reflexivity.
Qed.

Lemma main_without_image_entry_witness :
  main (mkWorld (fun _ => None) (fun p => p) (fun p => p) (fun _ _ => true)
          (fun _ _ _ => 0%Z) (fun _ _ _ => 0%Z) Sample.guest_named
          (fun _ _ => 0%Z) (fun _ _ _ => 0%Z) (fun _ _ => true)
          (fun _ _ => true) (fun _ _ _ => 0%Z)) [] =
    (Val (VInt EINVAL),
     [ EGetconf "system-imaging.bsd-image";
       ELog ERROR MissingNuage;
       ELog ERROR (FailedCloudimage (VInt EINVAL)) ]).
Proof.
  apply main_without_image_entry. reflexivity.
Defined.

(** ** Download, decompression and the image the guest starts from *)

(** X8. A decompression that answers with an error ends the run there,
    with the status of the decompression: what was decompressed is the
    cache path, into the resolved decompressed path (each the path that
    [Path] builds from the configured text), after a failed existence
    check of that path and the creation of its directory; only the error
    line follows. *)
Theorem decompress_failure_stops w image h r tr src dst err :
  cloudimage_from_nuageimage w image h = (r, tr) ->
  In (EDecompress src dst err) tr -> err <> 0%Z ->
  r = Val (VInt err) /\
  exists e downloaded s,
    accepted image e /\
    src = nuage_image_path e /\
    decompressed_path_of e = Some s /\
    dst = path_resolve w s /\
    tr = cached_events w e downloaded ++
         [ EExists dst false;
           EMkdir (path_parent w dst);
           EDecompress src dst err;
           ELog ERROR (DecompressFailed src dst) ].
Proof.
  intros H Hin Herr.
  destruct (cloudimage_stages _ _ _ _ _ H)
    as [(rb & Hb & Hs)
       | [(e & rf & Ha & Hf & Hs)
         | [(e & p & fetched & rg & t & _ & Hf & Hg & Hs & ->)
           | (e & p & fetched & name & t & _ & Hf & _ & Hp & ->)]]].
  - pose proof (read_entries_no_call _ _ _ _ _ Hb Hin) as Hc. discriminate Hc.
  - open_stopped; inversion Hf; subst; in_shape Hin; try congruence;
      injection Hin as <- <- <-;
      (split; [reflexivity |]);
      exists e, downloaded, s; auto 8.
  - in_shape Hin.
    + inversion Hf; subst; in_shape Hin; congruence.
    + destruct (find_guest_no_call _ _ _ _ _ _ Hg Hin) as [Hc | Hc];
        discriminate Hc.
  - in_shape Hin.
    + inversion Hf; subst; in_shape Hin; congruence.
    + destruct (provision_run_no_transfer _ _ _ _ _ _ _ Hp Hin) as [_ Hc].
      discriminate Hc.
Qed.

(** X9. The image a guest is initialised from is the resolved decompressed
    path when one is configured, and the cache path otherwise, each the
    path that [Path] builds from the configured text and not that text
    itself. *)
Theorem initialized_from_fetched_image w image h r tr image_path :
  cloudimage_from_nuageimage w image h = (r, tr) ->
  In (EInitialize image_path) tr ->
  exists e,
    accepted image e /\
    image_path = match decompressed_path_of e with
                 | Some s => path_resolve w s
                 | None => nuage_image_path e
                 end.
Proof.
  intros H Hin.
  destruct (cloudimage_stages _ _ _ _ _ H)
    as [(rb & Hb & Hs)
       | [(e & rf & Ha & Hf & Hs)
         | [(e & p & fetched & rg & t & _ & Hf & Hg & Hs & ->)
           | (e & p & fetched & name & t & Ha & Hf & _ & Hp & ->)]]].
  - pose proof (read_entries_no_call _ _ _ _ _ Hb Hin) as Hc. discriminate Hc.
  - inversion Hf; subst; in_shape Hin.
  - in_shape Hin.
    + inversion Hf; subst; in_shape Hin.
    + destruct (find_guest_no_call _ _ _ _ _ _ Hg Hin) as [Hc | Hc];
        discriminate Hc.
  - exists e. split; [exact Ha |].
    in_shape Hin; [inversion Hf; subst; in_shape Hin |].
    inversion Hp; subst;
      try match goal with
        | I : install_run _ _ _ |- _ => inversion I; subst; clear I
        end;
      try match goal with
        | C : copy_run _ _ _ _ _ |- _ => inversion C; subst; clear C
        end;
      unfold mkisofs_event, info_event, resize_event in *;
      in_shape Hin;
      injection Hin as <-;
      inversion Hf; subst;
      match goal with
      | D : decompressed_path_of _ = _ |- _ => rewrite D
      end; reflexivity.
Qed.

(** ** The selection of the guest *)

Lemma fetch_run_In_untouched w e r t x :
  fetch_run w e r t -> In x t -> touches_guest x = false.
Proof.
  intros H Hin.
  apply (untouched_In t); [| exact Hin].
  apply prelude_untouched, (fetch_run_prelude _ _ _ _ H).
Qed.

(** X10. The guest a run creates is the first configured guest whose label
    equals the [system_label] of the image: the guests before it all
    declare a label, and another one. *)
Theorem created_guest_is_first_match w image h r tr name :
  cloudimage_from_nuageimage w image h = (r, tr) ->
  In (EGuest name) tr ->
  exists d pre g post label,
    image = VDict d /\
    conf_or w "qemu.guests" (VDict []) = VDict (pre ++ (name, g) :: post) /\
    Forall (passed_over (dict_get_or d "system_label" VNone)) pre /\
    has_label g label /\
    is_None label = false /\
    py_eq label (dict_get_or d "system_label" VNone) = true.
Proof.
  intros H Hin.
  destruct (cloudimage_selected _ _ _ _ _ H)
    as [[Hpre _] | (e & p & fetched & name' & t & _ & Hf & Hg & Hp & ->)].
  - apply prelude_untouched in Hpre.
    pose proof (untouched_In _ _ Hpre Hin) as Hc. discriminate Hc.
  - assert (Hname : name = name').
    { in_shape Hin.
      - pose proof (fetch_run_In_untouched _ _ _ _ _ Hf Hin) as Hc.
        discriminate Hc.
      - open_shapes; in_shape Hin; congruence. }
    subst name'.
    destruct (find_guest_shape _ _ _ _ _ Hg) as (L & _ & Hs).
    destruct Hs as [(d & pre & n & g & post & label & -> & Hc & Hall & Hl
                      & Hn & He & _ & [= <-] & _)
                   | [(Hr & _) | (Hr & _)]];
      [| discriminate Hr | discriminate Hr].
    exists d, pre, g, post, label. auto 8.
Qed.

(** X11. When every configured guest declares a label other than the one
    looked for (in particular when no guest is configured, or the key
    [qemu.guests] is absent), the selection returns [EINVAL] after logging
    that no guest was found. *)
Theorem no_matching_guest w d items h :
  conf_or w "qemu.guests" (VDict []) = VDict items ->
  Forall (passed_over (dict_get_or d "system_label" VNone)) items ->
  find_guest w (VDict d) h =
    (Return (VInt EINVAL),
     (if is_None (dict_get_or d "system_label" VNone)
      then [ELog ERROR MissingSystemLabel] else [])
     ++ [ EGetconf "qemu.guests"; ELog ERROR NoGuestFound ]).
Proof.
  intros Hconf Hall.
  destruct (find_guest w (VDict d) h) as [r t] eqn:E.
  unfold find_guest in E.
  inv E;
    match goal with
    | L : guests_loop _ ?l _ = _ |- _ =>
        rewrite <- (app_nil_r l) in L;
        rewrite (guests_loop_passed_over _ _ [] Hall) in L;
        cbn [guests_loop] in L; inv L
    end;
    reflexivity.
Qed.

(** X12. Without a [system_label] in the image description no guest is
    ever created, stopped, started or talked to, and the run does not end
    with 0. *)
Theorem missing_system_label_never_selects w d h r tr :
  is_None (dict_get_or d "system_label" VNone) = true ->
  cloudimage_from_nuageimage w (VDict d) h = (r, tr) ->
  untouched tr /\ r <> Val (VInt 0).
Proof.
  intros Hn H.
  destruct (cloudimage_selected _ _ _ _ _ H)
    as [[Hpre Hv] | (e & p & fetched & name' & t & _ & Hf & Hg & Hp & ->)].
  - split; [apply prelude_untouched, Hpre |].
    intros ->. specialize (Hv _ eq_refl). discriminate Hv.
  - exfalso.
    destruct (find_guest_shape _ _ _ _ _ Hg) as (L & _ & Hs).
    destruct Hs as [(d' & pre & n & g & post & label & [= <-] & _ & _ & _
                      & _ & _ & Hn' & _)
                   | [(Hr & _) | (Hr & _)]];
      [congruence | discriminate Hr | discriminate Hr].
Qed.

(** ** The order of a successful run *)




(** ** The guest between its creation and the install *)

(** X13. A guest is only ever started on a prepared image: when a run
    starts the guest, it has before that, in this order, selected and
    created the guest, stopped it, initialised it, copied the two payload
    files, built the seed volume with status 0, and resized the boot image
    with status 0 between two inspections; the start that follows the
    transport check is the one in the foreground, with the seed volume and
    [-no-reboot]. *)
Theorem start_needs_prepared_guest w image h r tr daemonize args err :
  cloudimage_from_nuageimage w image h = (r, tr) ->
  In (EStart daemonize args err) tr ->
  exists e fetched image_path name cp1 cp2 i1 i2 err1 rest,
    accepted image e /\
    untouched fetched /\
    tr =
      fetched ++
      [EGetconf "qemu.guests"] ++
      setup_events e image_path name (guest_of w name) cp1 cp2 ++
      [ mkisofs_event (guest_of w name) 0;
        info_event (guest_of w name) i1;
        resize_event (guest_of w name) 0;
        info_event (guest_of w name) i2 ] ++
      install_intro ++
      EStart false ["-cdrom"; seed_img_of (guest_of w name); "-no-reboot"] err1
        :: rest.
Proof.
  intros H Hin.
  destruct (cloudimage_selected _ _ _ _ _ H)
    as [[Hpre _] | (e & p & fetched & name & t & Ha & Hf & _ & Hp & ->)].
  - apply prelude_untouched in Hpre.
    pose proof (untouched_In _ _ Hpre Hin) as Hc. discriminate Hc.
  - assert (Hu : untouched fetched)
      by apply prelude_untouched, (fetch_run_prelude _ _ _ _ Hf).
    exists e, fetched, p, name.
    destruct Hp as [cp1 cp2 e0 He0 | cp1 cp2 i1 e0 He0
                   | cp1 cp2 i1 i2 v ti Hi Hv | cp1 cp2 i1 i2 ti r tf Hi Hc];
      try (exfalso; unfold mkisofs_event, info_event, resize_event in *;
           in_shape Hin;
           pose proof (untouched_In _ _ Hu Hin) as Hc'; discriminate Hc').
    + exists cp1, cp2, i1, i2.
      destruct Hi;
        first
          [ exfalso; unfold mkisofs_event, info_event, resize_event in *;
            in_shape Hin;
            pose proof (untouched_In _ _ Hu Hin) as Hc'; discriminate Hc'
          | do 2 eexists; split; [exact Ha |]; split; [exact Hu |];
            unfold install_intro, install_boot, setup_events; cbn [app];
            reflexivity ].
    + exists cp1, cp2, i1, i2.
      inversion Hi; subst.
      do 2 eexists. split; [exact Ha |]. split; [exact Hu |].
      unfold install_intro, install_boot, setup_events. cbn [app].
      reflexivity.
Qed.

Lemma remote_commands_app a b :
  remote_commands (a ++ b) = remote_commands a ++ remote_commands b.
Proof.
  induction a as [| e a IH]; [reflexivity |].
  destruct e; cbn [app remote_commands]; rewrite IH; reflexivity.
Qed.

Lemma untouched_remote_commands tr : untouched tr -> remote_commands tr = [].
Proof.
  unfold untouched. induction tr as [| e tr IH]; [reflexivity |].
  cbn [forallb]. intros [He Htr]%andb_prop.
  destruct e; try discriminate He; cbn [remote_commands]; auto.
Qed.

Lemma ok_runs_remote_commands l :
  remote_commands (map ok_run l) = map ok_run l.
Proof. induction l; [reflexivity | cbn; f_equal; auto]. Qed.

Lemma install_run_remote_commands args v t :
  install_run args v t ->
  remote_commands t = []
  \/ remote_commands t = map ok_run cmds
  \/ exists done cmd rest err,
       cmds = done ++ cmd :: rest /\ err <> 0%Z /\
       remote_commands t = map ok_run done ++ [ERun cmd "default_freebsd" err].
Proof.
  intros H. destruct H; unfold install_intro, install_boot;
    cbn [app remote_commands];
    rewrite ?remote_commands_app, ?ok_runs_remote_commands;
    cbn [app remote_commands]; rewrite ?app_nil_r; auto.
  right. right. exists done, cmd, rest, err. auto.
Qed.

(** X14. The remote commands of a run are, in the order of the script, the
    commands of the install script up to the first one that fails, all
    over the transport [default_freebsd]: none at all, or all three with
    status 0, or the first ones with status 0 followed by the failing
    one. *)
Theorem remote_commands_follow_the_script w image h r tr :
  cloudimage_from_nuageimage w image h = (r, tr) ->
  remote_commands tr = []
  \/ remote_commands tr = map ok_run cmds
  \/ exists done cmd rest err,
       cmds = done ++ cmd :: rest /\ err <> 0%Z /\
       remote_commands tr =
         map ok_run done ++ [ERun cmd "default_freebsd" err].
Proof.
  intros H.
  destruct (cloudimage_selected _ _ _ _ _ H)
    as [[Hpre _] | (e & p & fetched & name & t & Ha & Hf & _ & Hp & ->)].
  - left. apply untouched_remote_commands, prelude_untouched, Hpre.
  - assert (Hu : untouched fetched)
      by apply prelude_untouched, (fetch_run_prelude _ _ _ _ Hf).
    rewrite remote_commands_app, (untouched_remote_commands _ Hu).
    cbn [app remote_commands].
    destruct Hp as [cp1 cp2 e0 He0 | cp1 cp2 i1 e0 He0
                   | cp1 cp2 i1 i2 v ti Hi Hv | cp1 cp2 i1 i2 ti r tf Hi Hc];
      unfold setup_events, mkisofs_event, info_event, resize_event;
      cbn [app remote_commands]; auto.
    + rewrite remote_commands_app. cbn [remote_commands].
      rewrite app_nil_r. exact (install_run_remote_commands _ _ _ Hi).
    + rewrite remote_commands_app.
      rewrite (untouched_remote_commands tf (copy_run_untouched _ _ _ _ _ Hc)).
      rewrite app_nil_r. exact (install_run_remote_commands _ _ _ Hi).
Qed.

Lemma ok_runs_count_failed l : count is_failed_run (map ok_run l) = 0%nat.
Proof. induction l; [reflexivity | cbn; auto]. Qed.

Lemma nonzero_of_ne (z : Z) : z <> 0%Z -> nonzero z = true.
Proof.
  intros Hz. unfold nonzero. destruct (Z.eqb_spec z 0); [contradiction | auto].
Qed.

Lemma count_cons P x l :
  count P (x :: l) = ((if P x then 1 else 0) + count P l)%nat.
Proof. unfold count. cbn [filter]. destruct (P x); reflexivity. Qed.

Lemma count_nil P : count P [] = 0%nat.
Proof. reflexivity. Qed.

Lemma install_run_kills args v t :
  install_run args v t -> count is_kill t = count is_failed_run t.
Proof.
  intros H. destruct H; unfold install_intro, install_boot;
    rewrite ?count_app, ?ok_runs_count_kill, ?ok_runs_count_failed;
    try reflexivity.
  unfold count. cbn. rewrite (nonzero_of_ne _ H0). reflexivity.
Qed.

(** X15. The guest is stopped once when it is created and once more for
    every remote command that failed, and at no other time: the kills of a
    run are as many as the guests it created plus the remote commands that
    answered with an error. *)
Theorem kills_are_accounted_for w image h r tr :
  cloudimage_from_nuageimage w image h = (r, tr) ->
  count is_kill tr =
    (List.length (guest_names tr) + count is_failed_run tr)%nat.
Proof.
  intros H.
  assert (Hk : forall x, is_kill x = true -> touches_guest x = true)
    by (intros [] Hx; try discriminate Hx; reflexivity).
  assert (Hr : forall x, is_failed_run x = true -> touches_guest x = true)
    by (intros [] Hx; try discriminate Hx; reflexivity).
  destruct (cloudimage_selected _ _ _ _ _ H)
    as [[Hpre _] | (e & p & fetched & name & t & Ha & Hf & _ & Hp & ->)].
  - apply prelude_untouched in Hpre.
    rewrite (untouched_count _ _ Hk Hpre), (untouched_count _ _ Hr Hpre).
    rewrite (untouched_guest_names _ Hpre). reflexivity.
  - assert (Hu : untouched fetched)
      by apply prelude_untouched, (fetch_run_prelude _ _ _ _ Hf).
    rewrite !count_app, guest_names_app.
    rewrite (untouched_count _ _ Hk Hu), (untouched_count _ _ Hr Hu).
    rewrite (untouched_guest_names _ Hu).
    destruct Hp as [cp1 cp2 e0 He0 | cp1 cp2 i1 e0 He0
                   | cp1 cp2 i1 i2 v ti Hi Hv | cp1 cp2 i1 i2 ti r tf Hi Hc];
      unfold setup_events, mkisofs_event, info_event, resize_event;
      cbn [app guest_names]; try reflexivity.
    + rewrite guest_names_app, (install_run_guest_names _ _ _ Hi).
      pose proof (install_run_kills _ _ _ Hi) as Hi'.
      rewrite !count_cons, !count_app, !count_cons, !count_nil.
      cbn [is_kill is_failed_run app guest_names List.length]. lia.
    + apply copy_run_untouched in Hc.
      rewrite !guest_names_app, (install_run_guest_names _ _ _ Hi).
      rewrite (untouched_guest_names _ Hc).
      pose proof (install_run_kills _ _ _ Hi) as Hi'.
      pose proof (untouched_count _ _ Hk Hc) as Hc1.
      pose proof (untouched_count _ _ Hr Hc) as Hc2.
      rewrite !count_cons, !count_app.
      cbn [is_kill is_failed_run app guest_names List.length]. lia.
Qed.

(** ** Failed starts and waits *)

Lemma install_run_start_failure args v t daemonize a err :
  install_run args v t ->
  In (EStart daemonize a err) t -> err <> 0%Z ->
  v = VInt err /\
  count is_kill t = 0%nat /\
  count is_run t = 0%nat /\
  exists pre msg, t = pre ++ [EStart daemonize a err; ELog ERROR msg].
Proof.
  intros H Hin Herr.
  destruct H; in_shape Hin; try congruence;
    injection Hin as <- <- <-;
    (split; [reflexivity |]); (split; [reflexivity |]);
    (split; [reflexivity |]).
  - exists install_intro. eexists. reflexivity.
  - exists (install_intro ++
            [ EStart false (args ++ ["-no-reboot"]) 0;
              EWaitForTermination 60 true ]).
    eexists. rewrite <- app_assoc. reflexivity.
Qed.

Lemma install_run_not_terminated args v t timeout :
  install_run args v t ->
  In (EWaitForTermination timeout false) t ->
  timeout = 60%Z /\
  v = VInt 1 /\
  count is_kill t = 0%nat /\
  exists pre,
    t = pre ++ [EWaitForTermination 60 false; ELog ERROR NotTerminated].
Proof.
  intros H Hin.
  destruct H; in_shape Hin; try discriminate Hin;
    injection Hin as <-;
    (split; [reflexivity |]); (split; [reflexivity |]).
  - split; [reflexivity |].
    exists (install_intro ++ [EStart false (args ++ ["-no-reboot"]) 0]).
    rewrite <- app_assoc. reflexivity.
  - split; [rewrite !count_app, ok_runs_count_kill; reflexivity |].
    exists (install_intro ++ install_boot args ++ map ok_run cmds).
    rewrite <- !app_assoc. reflexivity.
Qed.

(** The prefix of a failed install inside the run of the pipeline. *)
Lemma install_failure_in_pipeline (fetched s1 s2 ti pre last : trace) :
  ti = pre ++ last ->
  exists pre',
    fetched ++ EGetconf "qemu.guests" :: s1 ++ s2 ++ ti
      ++ [ELog ERROR CouldNotInstall] =
    pre' ++ last ++ [ELog ERROR CouldNotInstall].
Proof.
  intros ->. exists (fetched ++ EGetconf "qemu.guests" :: s1 ++ s2 ++ pre).
  rewrite <- !app_assoc. cbn [app]. rewrite <- !app_assoc. reflexivity.
Qed.

(** X16. A start of the guest that answers with an error ends the run with
    that status: only the two error lines follow, the guest is not stopped
    again (the only kill is the one that preceded its initialisation) and
    no remote command is run. *)
Theorem start_failure_stops w image h r tr daemonize args err :
  cloudimage_from_nuageimage w image h = (r, tr) ->
  In (EStart daemonize args err) tr -> err <> 0%Z ->
  r = Val (VInt err) /\
  count is_kill tr = 1%nat /\
  count is_run tr = 0%nat /\
  exists pre msg,
    tr = pre ++ [ EStart daemonize args err;
                  ELog ERROR msg;
                  ELog ERROR CouldNotInstall ].
Proof.
  intros H Hin Herr.
  assert (Hk : forall x, is_kill x = true -> touches_guest x = true)
    by (intros [] Hx; try discriminate Hx; reflexivity).
  assert (Hr : forall x, is_run x = true -> touches_guest x = true)
    by (intros [] Hx; try discriminate Hx; reflexivity).
  destruct (cloudimage_selected _ _ _ _ _ H)
    as [[Hpre _] | (e & p & fetched & name & t & Ha & Hf & _ & Hp & ->)].
  - apply prelude_untouched in Hpre.
    pose proof (untouched_In _ _ Hpre Hin) as Hc. discriminate Hc.
  - assert (Hu : untouched fetched)
      by apply prelude_untouched, (fetch_run_prelude _ _ _ _ Hf).
    destruct Hp as [cp1 cp2 e0 He0 | cp1 cp2 i1 e0 He0
                   | cp1 cp2 i1 i2 v ti Hi Hv | cp1 cp2 i1 i2 ti r tf Hi Hc];
      unfold mkisofs_event, info_event, resize_event in *;
      in_split Hin;
      try (pose proof (untouched_In _ _ Hu Hin) as Hc'; discriminate Hc').
    + destruct (install_run_start_failure _ _ _ _ _ _ Hi Hin Herr)
        as (-> & Hkill & Hrun & pre & msg & Ht).
      split; [reflexivity |].
      split; [| split].
      * rewrite !count_app, (untouched_count _ _ Hk Hu).
        rewrite !count_cons, !count_app, Hkill.
        unfold setup_events. rewrite !count_cons, !count_nil. reflexivity.
      * rewrite !count_app, (untouched_count _ _ Hr Hu).
        rewrite !count_cons, !count_app, Hrun.
        unfold setup_events. rewrite !count_cons, !count_nil. reflexivity.
      * destruct (install_failure_in_pipeline fetched
                    (setup_events e p name (guest_of w name) cp1 cp2)
                    [ ERunLocal
                        (mkisofs_cmd (seed_img_of (guest_of w name))
                           (joinpath (guest_path (guest_of w name))
                              "user-data")
                           (joinpath (guest_path (guest_of w name))
                              "meta-data")) 0;
                      ERunLocal ("qemu-img info "
                                   ++ boot_img (guest_of w name))%string i1;
                      ERunLocal ("qemu-img resize "
                                   ++ boot_img (guest_of w name)
                                   ++ " 12G")%string 0;
                      ERunLocal ("qemu-img info "
                                   ++ boot_img (guest_of w name))%string i2 ]
                    ti pre _ Ht) as (pre' & Hpre').
        exists pre', msg. exact Hpre'.
    + destruct (install_run_start_failure _ _ _ _ _ _ Hi Hin Herr)
        as (Hv & _). discriminate Hv.
    + apply copy_run_untouched in Hc.
      pose proof (untouched_In _ _ Hc Hin) as Hc'. discriminate Hc'.
Qed.

(** X17. A wait for termination that runs out, after the first boot or
    after the install, is the wait of 60 seconds and ends the run with 1:
    only the two error lines follow, so the image is not copied to its
    destination, and the guest is not stopped again (the only kill is the
    one that preceded its initialisation). *)
Theorem termination_timeout_stops w image h r tr timeout :
  cloudimage_from_nuageimage w image h = (r, tr) ->
  In (EWaitForTermination timeout false) tr ->
  timeout = 60%Z /\
  r = Val (VInt 1) /\
  count is_kill tr = 1%nat /\
  exists pre,
    tr = pre ++ [ EWaitForTermination 60 false;
                  ELog ERROR NotTerminated;
                  ELog ERROR CouldNotInstall ].
Proof.
  intros H Hin.
  assert (Hk : forall x, is_kill x = true -> touches_guest x = true)
    by (intros [] Hx; try discriminate Hx; reflexivity).
  destruct (cloudimage_selected _ _ _ _ _ H)
    as [[Hpre _] | (e & p & fetched & name & t & Ha & Hf & _ & Hp & ->)].
  - apply prelude_untouched in Hpre.
    pose proof (untouched_In _ _ Hpre Hin) as Hc. discriminate Hc.
  - assert (Hu : untouched fetched)
      by apply prelude_untouched, (fetch_run_prelude _ _ _ _ Hf).
    destruct Hp as [cp1 cp2 e0 He0 | cp1 cp2 i1 e0 He0
                   | cp1 cp2 i1 i2 v ti Hi Hv | cp1 cp2 i1 i2 ti r tf Hi Hc];
      unfold mkisofs_event, info_event, resize_event in *;
      in_split Hin;
      try (pose proof (untouched_In _ _ Hu Hin) as Hc'; discriminate Hc').
    + destruct (install_run_not_terminated _ _ _ _ Hi Hin)
        as (-> & -> & Hkill & pre & Ht).
      split; [reflexivity |]. split; [reflexivity |].
      split.
      * rewrite !count_app, (untouched_count _ _ Hk Hu).
        rewrite !count_cons, !count_app, Hkill.
        unfold setup_events. rewrite !count_cons, !count_nil. reflexivity.
      * destruct (install_failure_in_pipeline fetched
                    (setup_events e p name (guest_of w name) cp1 cp2)
                    [ ERunLocal
                        (mkisofs_cmd (seed_img_of (guest_of w name))
                           (joinpath (guest_path (guest_of w name))
                              "user-data")
                           (joinpath (guest_path (guest_of w name))
                              "meta-data")) 0;
                      ERunLocal ("qemu-img info "
                                   ++ boot_img (guest_of w name))%string i1;
                      ERunLocal ("qemu-img resize "
                                   ++ boot_img (guest_of w name)
                                   ++ " 12G")%string 0;
                      ERunLocal ("qemu-img info "
                                   ++ boot_img (guest_of w name))%string i2 ]
                    ti pre _ Ht) as (pre' & Hpre').
        exists pre'. exact Hpre'.
    + destruct (install_run_not_terminated _ _ _ _ Hi Hin) as (_ & Hv & _).
      discriminate Hv.
    + apply copy_run_untouched in Hc.
      pose proof (untouched_In _ _ Hc Hin) as Hc'. discriminate Hc'.
Qed.

(** ** What a run returns and what it logs *)

Lemma statuses_app a b : statuses (a ++ b) = statuses a ++ statuses b.
Proof.
  induction a as [| e a IH]; [reflexivity |].
  destruct e; cbn [app statuses]; rewrite IH; reflexivity.
Qed.

(** A status found in a trace given by the shapes of the blocks. *)
Ltac find_status :=
  unfold install_intro, install_boot, setup_events, mkisofs_event,
    info_event, resize_event;
  repeat rewrite statuses_app;
  cbn [statuses app];
  repeat first
    [ apply in_eq
    | apply in_or_app; right
    | apply in_cons ].

Lemma install_run_status args v t :
  install_run args v t ->
  v = VNone \/ v = VInt 1
  \/ exists z, v = VInt z /\ z <> 0%Z /\ In z (statuses t).
Proof.
  intros H. destruct H; auto;
    right; right; eexists; (split; [reflexivity |]);
    (split; [assumption |]); find_status.
Qed.

(** X18. The value a run returns is never made up: it is 0, [EINVAL], 1, or
    a non-zero status that one of its external calls (download,
    decompression, local command, guest start, remote command) answered. *)
Theorem result_is_a_status w image h v tr :
  cloudimage_from_nuageimage w image h = (Val v, tr) ->
  exists z,
    v = VInt z /\
    (z = 0%Z \/ z = EINVAL \/ z = 1%Z \/ (z <> 0%Z /\ In z (statuses tr))).
Proof.
  intros H.
  destruct (cloudimage_stages _ _ _ _ _ H)
    as [(rb & Hb & Hs)
       | [(e & rf & Ha & Hf & Hs)
         | [(e & p & fetched & rg & t & _ & Hf & Hg & Hs & ->)
           | (e & p & fetched & name & t & _ & Hf & _ & Hp & ->)]]].
  - destruct (read_entries_shape _ _ _ _ Hb)
      as [(e & -> & _) | [(-> & _) | (ex & -> & _)]];
      destruct Hs as [(v' & Hr & Hv) | (ex' & Hr & Hv)];
      try discriminate Hr; try discriminate Hv.
    injection Hr as Hr. injection Hv as Hv. subst. eauto.
  - destruct Hs as [(v' & -> & [= <-]) | (ex' & _ & Hv)];
      [| discriminate Hv].
    inversion Hf; subst;
      eexists; (split; [reflexivity |]); right; right; right;
      (split; [assumption |]);
      try match goal with
        | |- context [cached_events _ _ ?b] =>
            destruct b; unfold cached_events
        end;
      find_status.
  - destruct Hs as [(v' & -> & [= <-]) | (ex' & _ & Hv)];
      [| discriminate Hv].
    destruct (find_guest_shape _ _ _ _ _ Hg) as (L & _ & Hs).
    destruct Hs as [(d & pre & n & g & post & label & _ & _ & _ & _ & _ & _
                      & _ & Hr & _)
                   | [([= ->] & _) | (Hr & _)]];
      try discriminate Hr.
    eauto.
  - inversion Hp as [cp1 cp2 e0 He0 | cp1 cp2 i1 e0 He0
                    | cp1 cp2 i1 i2 v' ti Hi Hv | cp1 cp2 i1 i2 ti r tf Hi Hc];
      subst.
    + eexists. split; [reflexivity |]. right. right. right.
      split; [assumption |].
      rewrite statuses_app. apply in_or_app. right. find_status.
    + eexists. split; [reflexivity |]. right. right. right.
      split; [assumption |].
      rewrite statuses_app. apply in_or_app. right. find_status.
    + destruct (install_run_status _ _ _ Hi)
        as [-> | [-> | (z & -> & Hz & Hin)]];
        [discriminate Hv | exists 1%Z; auto |].
      exists z. split; [reflexivity |]. right. right. right.
      split; [assumption |].
      rewrite statuses_app. apply in_or_app. right.
      unfold setup_events, mkisofs_event, info_event, resize_event.
      cbn [app statuses]. do 6 apply in_cons.
      rewrite statuses_app. apply in_or_app. left. exact Hin.
    + inversion Hc; subst.
      * eexists. split; [reflexivity |]. right. right. right.
        split; [assumption |].
        rewrite statuses_app. apply in_or_app. right.
        unfold setup_events, mkisofs_event, info_event, resize_event.
        cbn [app statuses]. do 6 apply in_cons.
        rewrite statuses_app. apply in_or_app. right. find_status.
      * eexists. split; [reflexivity |]. right. right. right.
        split; [assumption |].
        rewrite statuses_app. apply in_or_app. right.
        unfold setup_events, mkisofs_event, info_event, resize_event.
        cbn [app statuses]. do 6 apply in_cons.
        rewrite statuses_app. apply in_or_app. right. find_status.
      * eauto.
Qed.

Lemma ends_in_log_app (a t : trace) :
  (exists pre msg, t = pre ++ [ELog ERROR msg]) ->
  exists pre msg, a ++ t = pre ++ [ELog ERROR msg].
Proof.
  intros (pre & msg & ->). exists (a ++ pre), msg.
  rewrite app_assoc. reflexivity.
Qed.

Lemma ends_in_log_cons (x : event) (t : trace) :
  (exists pre msg, t = pre ++ [ELog ERROR msg]) ->
  exists pre msg, x :: t = pre ++ [ELog ERROR msg].
Proof. apply (ends_in_log_app [x]). Qed.

Lemma ends_in_log_one msg :
  exists pre msg', [ELog ERROR msg] = pre ++ [ELog ERROR msg'].
Proof. exists [], msg. reflexivity. Qed.

(** The last event of a trace given by the shapes of the blocks is an
    error line. *)
Ltac ends_in_log :=
  unfold install_intro, install_boot, setup_events, mkisofs_event,
    info_event, resize_event;
  cbn [app];
  repeat first
    [ apply ends_in_log_one
    | apply ends_in_log_cons
    | apply ends_in_log_app ].

(** X19. Every run that returns something other than 0 ends on an error
    line of the log, and a run that returns 0 has logged no error. *)
Theorem failure_is_logged_last w image h v tr :
  cloudimage_from_nuageimage w image h = (Val v, tr) ->
  (v <> VInt 0 -> exists pre msg, tr = pre ++ [ELog ERROR msg]) /\
  (v = VInt 0 -> count is_error_log tr = 0%nat).
Proof.
  intros H.
  destruct (cloudimage_stages _ _ _ _ _ H)
    as [(rb & Hb & Hs)
       | [(e & rf & Ha & Hf & Hs)
         | [(e & p & fetched & rg & t & _ & Hf & Hg & Hs & ->)
           | (e & p & fetched & name & t & _ & Hf & _ & Hp & ->)]]].
  - destruct (read_entries_shape _ _ _ _ Hb)
      as [(e & -> & _) | [(-> & Ht) | (ex & -> & _)]];
      destruct Hs as [(v' & Hr & Hv) | (ex' & Hr & Hv)];
      try discriminate Hr; try discriminate Hv.
    injection Hr as Hr. injection Hv as Hv. subst.
    split; [| intros Hc; discriminate Hc].
    intros _. destruct Ht as [-> | ->]; ends_in_log.
  - destruct Hs as [(v' & -> & [= <-]) | (ex' & _ & Hv)];
      [| discriminate Hv].
    inversion Hf; subst;
      (split; [| intros [= ->]; contradiction]);
      intros _;
      try match goal with
        | |- context [cached_events _ _ ?b] =>
            destruct b; unfold cached_events
        end;
      ends_in_log.
  - destruct Hs as [(v' & -> & [= <-]) | (ex' & _ & Hv)];
      [| discriminate Hv].
    destruct (find_guest_shape _ _ _ _ _ Hg) as (L & _ & Hs).
    destruct Hs as [(d & pre & n & g & post & label & _ & _ & _ & _ & _ & _
                      & _ & Hr & _)
                   | [([= ->] & msg & ->) | (Hr & _)]];
      try discriminate Hr.
    split; [| intros Hc; discriminate Hc].
    intros _. apply ends_in_log_app.
    exists (L ++ [EGetconf "qemu.guests"]), msg.
    rewrite <- app_assoc. reflexivity.
  - inversion Hp as [cp1 cp2 e0 He0 | cp1 cp2 i1 e0 He0
                    | cp1 cp2 i1 i2 v' ti Hi Hv | cp1 cp2 i1 i2 ti r tf Hi Hc];
      subst.
    + split; [| intros [= ->]; contradiction].
      intros _. apply ends_in_log_app. ends_in_log.
    + split; [| intros [= ->]; contradiction].
      intros _. apply ends_in_log_app. ends_in_log.
    + split; [| intros ->; discriminate Hv].
      intros _. apply ends_in_log_app. ends_in_log.
    + inversion Hc; subst.
      * split; [| intros [= ->]; contradiction].
        intros _. apply ends_in_log_app. ends_in_log.
      * split; [| intros [= ->]; contradiction].
        intros _. apply ends_in_log_app. ends_in_log.
      * split; [intros Hc'; contradiction |].
        intros _. inversion Hi; subst.
        inversion Hf; subst;
          try match goal with
            | |- context [cached_events _ _ ?b] =>
                destruct b; unfold cached_events
            end;
          reflexivity.
Qed.

(** ** Failed local commands *)

(** Membership of a local command in a trace given by the shapes of the
    blocks: the commands are told apart by their first letters. *)
Ltac in_commands H :=
  unfold mkisofs_event, info_event, resize_event, mkisofs_cmd in *;
  in_shape H;
  try (cbn in H; discriminate H).


(** X21. When the resize of the boot image fails, the run returns the
    status of [qemu-img resize] and ends there, on the error line, right
    after the successful seed volume and the first inspection: the guest
    is never started. *)
Theorem resize_failure_stops w image h r tr g err :
  cloudimage_from_nuageimage w image h = (r, tr) ->
  In (resize_event g err) tr -> err <> 0%Z ->
  r = Val (VInt err) /\
  boot_calls tr = [] /\
  exists pre name i1,
    tr = pre ++ [ mkisofs_event (guest_of w name) 0;
                  info_event (guest_of w name) i1;
                  resize_event (guest_of w name) err;
                  ELog ERROR FailedResizing ].
Proof.
  intros H Hin Herr.
  destruct (cloudimage_selected _ _ _ _ _ H)
    as [[Hpre _] | (e & p & fetched & name & t & Ha & Hf & _ & Hp & ->)].
  - rewrite forallb_forall in Hpre. specialize (Hpre _ Hin).
    discriminate Hpre.
  - assert (Hq : forallb is_prelude fetched = true)
      by apply (fetch_run_prelude _ _ _ _ Hf).
    assert (Hu : untouched fetched) by apply prelude_untouched, Hq.
    rewrite forallb_forall in Hq.
    destruct Hp as [cp1 cp2 e0 He0 | cp1 cp2 i1 e0 He0
                   | cp1 cp2 i1 i2 v ti Hi Hv | cp1 cp2 i1 i2 ti r tf Hi Hc];
      try (destruct Hi); try (destruct Hc);
      in_commands Hin;
      try (specialize (Hq _ Hin); discriminate Hq);
      try (cbn in Hin; injection Hin as _ Hin; congruence).
    cbn in Hin. injection Hin as _ <-.
    split; [reflexivity |].
    split.
    + rewrite boot_calls_app, (untouched_boot_calls _ Hu). reflexivity.
    + exists (fetched ++ EGetconf "qemu.guests"
                :: setup_events e p name (guest_of w name) cp1 cp2), name, i1.
      rewrite <- app_assoc. reflexivity.
Qed.

(** X22. When the checksum of the copied image fails, the run returns the
    status of [sha256sum] and ends there, on the error line; the copy to
    the destination has been made (with status 0), and neither the listing
    nor the display of the checksum follows. *)
Theorem checksum_failure_stops w image h r tr path err :
  cloudimage_from_nuageimage w image h = (r, tr) ->
  In (ERunLocal ("sha256sum " ++ path ++ " > " ++ path ++ ".sha256")%string
        err) tr ->
  err <> 0%Z ->
  r = Val (VInt err) /\
  exists pre name cloud_path,
    tr = pre ++
         [ ERunLocal ("cp " ++ boot_img (guest_of w name) ++ " "
                        ++ cloud_path)%string 0;
           ERunLocal ("sha256sum " ++ cloud_path ++ " > " ++ cloud_path
                        ++ ".sha256")%string err;
           ELog ERROR (FailedSha256 cloud_path) ].
Proof.
  intros H Hin Herr.
  destruct (cloudimage_selected _ _ _ _ _ H)
    as [[Hpre _] | (e & p & fetched & name & t & Ha & Hf & _ & Hp & ->)].
  - rewrite forallb_forall in Hpre. specialize (Hpre _ Hin).
    discriminate Hpre.
  - assert (Hq : forallb is_prelude fetched = true)
      by apply (fetch_run_prelude _ _ _ _ Hf).
    rewrite forallb_forall in Hq.
    destruct Hp as [cp1 cp2 e0 He0 | cp1 cp2 i1 e0 He0
                   | cp1 cp2 i1 i2 v ti Hi Hv | cp1 cp2 i1 i2 ti r tf Hi Hc];
      try (inversion Hi; subst; clear Hi); try (destruct Hc);
      in_commands Hin;
      try (specialize (Hq _ Hin); discriminate Hq);
      try (cbn in Hin; injection Hin as _ Hin; congruence).
    cbn in Hin. injection Hin as _ <-.
    split; [reflexivity |].
    exists (fetched ++ EGetconf "qemu.guests"
              :: setup_events e p name (guest_of w name) cp1 cp2
              ++ [ ERunLocal
                     (String.concat " "
                        [ "mkisofs"; "-output"; seed_img_of (guest_of w name);
                          "-volid"; "cidata"; "-joliet"; "-rock";
                          joinpath (guest_path (guest_of w name)) "user-data";
                          joinpath (guest_path (guest_of w name)) "meta-data" ])
                     0;
                   ERunLocal ("qemu-img info "
                                ++ boot_img (guest_of w name))%string i1;
                   ERunLocal ("qemu-img resize "
                                ++ boot_img (guest_of w name)
                                ++ " 12G")%string 0;
                   ERunLocal ("qemu-img info "
                                ++ boot_img (guest_of w name))%string i2 ]
              ++ (install_intro
                    ++ install_boot ["-cdrom"; seed_img_of (guest_of w name)]
                    ++ map ok_run cmds ++ [EWaitForTermination 60 true])
              ++ [EMkdir (path_parent w cloud_path)]),
      name, cloud_path.
    rewrite <- !app_assoc. cbn [app]. rewrite <- !app_assoc. reflexivity.
Qed.

(** ** The further properties at work *)

Lemma read_entries_accepts_witness :
  accepted Untidy.image
    (mkEntries Untidy.nuage_entry "/images/freebsd-nuage.qcow2"
       (VStr "https://example.org/freebsd-nuage.qcow2")
       "aux/meta-data" "/aux/user-data" Untidy.cloud_entry).
Proof.
  apply (proj1 (read_entries_accepts Untidy.image [] _)).
  reflexivity.
Defined.

Lemma download_failure_stops_witness :
  fst (cloudimage_from_nuageimage Faults.download_fails Sample.image []) =
    Val (VInt 7).
Proof.
  refine (proj1 (download_failure_stops Faults.download_fails Sample.image []
                   _ _ (VStr "https://example.org/freebsd-nuage.qcow2")
                   "/images/freebsd-nuage.qcow2" 7%Z
                   (surjective_pairing _) _ _)).
  - find_event.
  - discriminate.
Defined.

Lemma decompress_failure_stops_witness :
  fst (cloudimage_from_nuageimage Faults.decompress_fails
         Untidy.image_compressed []) =
    Val (VInt 5).
Proof.
  refine (proj1 (decompress_failure_stops Faults.decompress_fails
                   Untidy.image_compressed [] _ _
                   "/images/freebsd-nuage.qcow2.xz"
                   "/images/freebsd-nuage.qcow2" 5%Z
                   (surjective_pairing _) _ _)).
  - find_event.
  - discriminate.
Defined.

Lemma transfers_at_most_once_witness :
  (count is_download
     (snd (cloudimage_from_nuageimage Faults.download_fails Sample.image []))
   <= 1)%nat.
Proof.
  exact (proj1 (transfers_at_most_once Faults.download_fails Sample.image []
                  _ _ (surjective_pairing _))).
Defined.

Lemma initialized_from_fetched_image_witness :
  (exists e,
     accepted Untidy.image e /\
     "/images/freebsd-nuage.qcow2"%string =
       match decompressed_path_of e with
       | Some s => path_resolve Sample.happy s
       | None => nuage_image_path e
       end)
  /\
  (exists e,
     accepted Untidy.image_compressed e /\
     "/images/freebsd-nuage.qcow2"%string =
       match decompressed_path_of e with
       | Some s => path_resolve Sample.happy s
       | None => nuage_image_path e
       end).
Proof.
  split.
  - apply (initialized_from_fetched_image Sample.happy Untidy.image
             [] _ _ "/images/freebsd-nuage.qcow2" (surjective_pairing _)).
    find_event.
  - apply (initialized_from_fetched_image Sample.happy Untidy.image_compressed
             [] _ _ "/images/freebsd-nuage.qcow2" (surjective_pairing _)).
    find_event.
Defined.

Lemma created_guest_is_first_match_witness :
  exists d pre g post label,
    Sample.image = VDict d /\
    conf_or Sample.happy "qemu.guests" (VDict []) =
      VDict (pre ++ ("freebsd_vm"%string, g) :: post) /\
    Forall (passed_over (dict_get_or d "system_label" VNone)) pre /\
    has_label g label /\
    is_None label = false /\
    py_eq label (dict_get_or d "system_label" VNone) = true.
Proof.
  apply (created_guest_is_first_match Sample.happy Sample.image [] _ _
           "freebsd_vm" (surjective_pairing _)).
  find_event.
Defined.

Lemma no_matching_guest_witness :
  find_guest Faults.only_debian Sample.image [] =
    (Return (VInt EINVAL),
     [ EGetconf "qemu.guests"; ELog ERROR NoGuestFound ]).
Proof.
  refine (no_matching_guest Faults.only_debian Sample.image_items
            [("debian_vm"%string, VDict [("system_label"%string, VStr "debian")])]
            [] eq_refl _).
  constructor; [| constructor].
  exists (VStr "debian"). split; [| split; reflexivity].
  eexists. split; reflexivity.
Defined.

Lemma missing_system_label_never_selects_witness :
  untouched
    (snd (cloudimage_from_nuageimage Sample.happy
            Sample.image_without_system_label [])).
Proof.
  refine (proj1 (missing_system_label_never_selects Sample.happy
                   [("nuage"%string, Sample.nuage_entry);
                    ("cloud"%string, Sample.cloud_entry)]
                   [] _ _ eq_refl (surjective_pairing _))).
Defined.

Lemma start_needs_prepared_guest_witness :
  exists e, accepted Sample.image e.
Proof.
  destruct (start_needs_prepared_guest Sample.happy Sample.image [] _ _
              true ["-cdrom"%string; "/guests/freebsd_vm/seed.img"%string] 0%Z
              (surjective_pairing _))
    as (e & _ & _ & _ & _ & _ & _ & _ & _ & _ & Ha & _).
  - find_event.
  - exists e. exact Ha.
Defined.

Lemma remote_commands_follow_the_script_witness :
  remote_commands
    (snd (cloudimage_from_nuageimage Sample.sysrc_fails Sample.image [])) =
    [ ERun "su -m root -c 'pkg install -y $(pkg search -q cloud-init | head -n1)'"
        "default_freebsd" 0;
      ERun "su -m root -c 'sysrc cloudinit_enable=YES'" "default_freebsd" 3 ].
Proof.
  destruct (remote_commands_follow_the_script Sample.sysrc_fails Sample.image
              [] _ _ (surjective_pairing _)) as [Hn | [Hall | Hfail]].
  - vm_compute in Hn. discriminate Hn.
  - vm_compute in Hall. discriminate Hall.
  - vm_compute. reflexivity.
Defined.

Lemma kills_are_accounted_for_witness :
  count is_kill
    (snd (cloudimage_from_nuageimage Sample.sysrc_fails Sample.image [])) =
    2%nat.
Proof.
  rewrite (kills_are_accounted_for Sample.sysrc_fails Sample.image [] _ _
             (surjective_pairing _)).
  vm_compute. reflexivity.
Defined.

Lemma start_failure_stops_witness :
  fst (cloudimage_from_nuageimage Faults.first_start_fails Sample.image []) =
    Val (VInt 4).
Proof.
  refine (proj1 (start_failure_stops Faults.first_start_fails Sample.image []
                   _ _ false
                   ["-cdrom"%string; "/guests/freebsd_vm/seed.img"%string;
                    "-no-reboot"%string] 4%Z
                   (surjective_pairing _) _ _)).
  - find_event.
  - discriminate.
Defined.

Lemma termination_timeout_stops_witness :
  fst (cloudimage_from_nuageimage Faults.never_halts Sample.image []) =
    Val (VInt 1).
Proof.
  refine (proj1 (proj2 (termination_timeout_stops Faults.never_halts
                          Sample.image [] _ _ 60%Z
                          (surjective_pairing _) _))).
  find_event.
Defined.

Lemma result_is_a_status_witness :
  exists z,
    VInt 3 = VInt z /\
    (z = 0%Z \/ z = EINVAL \/ z = 1%Z \/
     (z <> 0%Z /\
      In z (statuses
              (snd (cloudimage_from_nuageimage Sample.sysrc_fails
                      Sample.image []))))).
Proof.
  apply (result_is_a_status Sample.sysrc_fails Sample.image []).
  vm_compute. reflexivity.
Defined.

Lemma failure_is_logged_last_witness :
  exists pre msg,
    snd (cloudimage_from_nuageimage Sample.sysrc_fails Sample.image []) =
      pre ++ [ELog ERROR msg].
Proof.
  apply (proj1 (failure_is_logged_last Sample.sysrc_fails Sample.image []
                  (VInt 3) _ ltac:(vm_compute; reflexivity))).
  discriminate.
Defined.


Lemma resize_failure_stops_witness :
  fst (cloudimage_from_nuageimage Faults.resize_fails Sample.image []) =
    Val (VInt 6).
Proof.
  refine (proj1 (resize_failure_stops Faults.resize_fails Sample.image [] _ _
                   (Sample.guest_named "freebsd_vm") 6%Z
                   (surjective_pairing _) _ _)).
  - find_event.
  - discriminate.
Defined.

Lemma checksum_failure_stops_witness :
  fst (cloudimage_from_nuageimage Faults.checksum_fails Sample.image []) =
    Val (VInt 8).
Proof.
  refine (proj1 (checksum_failure_stops Faults.checksum_fails Sample.image []
                   _ _ "/images/freebsd-cloud.qcow2" 8%Z
                   (surjective_pairing _) _ _)).
  - find_event.
  - discriminate.
Defined.
